(** * Vehicle checklist API: a shallow embedding of [api/server.py]

    The request handlers of the checklist backend are embedded as
    computations in a small state-and-exception monad.  The state is the
    [db.checklists] collection together with the number of readings that
    have been taken from the two ambient sources the handlers consult,
    [datetime.utcnow()] and [uuid.uuid4()].  An [HTTPException] raised by
    a handler is the error outcome of the computation. *)

From Stdlib Require Import ZArith Lia.
From stdpp Require Import base decidable option list strings pretty.

Local Open Scope string_scope.
Local Open Scope Z_scope.

(** ** Data model (the pydantic classes) *)

(** A [datetime] is an instant counted in microseconds, the resolution
    of Python's [datetime]. *)
Definition datetime := Z.

Module VehicleInfo.
Record t := mk {
    make : string;
    model : string;
    series : option string;
    year : string;
    bodyType : option string;
    doors : option string;
    assembly : option string;
    licensing : option string;
    purchaseDate : option string;
    vin : option string;
    buildDate : option string;
    trimCode : option string;
    optionCode : option string;
    odometer : option string;
    paintColor : option string;
    engine : option string;
    transmission : option string;
    drive : option string;
    layout : option string;
    rimSize : option string;
    tyreSize : option string;
    weight : option string;
    wheelbase : option string;
    length : option string;
    height : option string;
    width : option string
}.

#[global] Instance VehicleInfo_eq_dec : EqDecision t.
Proof. solve_decision. Defined.
End VehicleInfo.

Module EngineInfo.
Record t := mk {
    engineNumber : option string;
    engineCode : option string;
    description : option string;
    bore : option string;
    stroke : option string;
    compressionRatio : option string;
    power : option string;
    torque : option string
}.

#[global] Instance EngineInfo_eq_dec : EqDecision t.
Proof. solve_decision. Defined.
End EngineInfo.

Module ChecklistItem.
Record t := mk {
    id : string;
    text : string;
    completed : bool;
    completed_at : option datetime
}.

#[global] Instance ChecklistItem_eq_dec : EqDecision t.
Proof. solve_decision. Defined.
End ChecklistItem.

Module Photo.
Record t := mk {
    id : string;
    base64_data : string;
    description : option string;
    timestamp : datetime
}.

#[global] Instance Photo_eq_dec : EqDecision t.
Proof. solve_decision. Defined.
End Photo.

Module VehicleChecklist.
Record t := mk {
    id : string;
    title : string;
    vehicle_info : VehicleInfo.t;
    engine_info : EngineInfo.t;
    tasks : list ChecklistItem.t;
    parts_to_install : list ChecklistItem.t;
    maintenance : list ChecklistItem.t;
    research_items : list ChecklistItem.t;
    photos : list Photo.t;
    created_at : datetime;
    updated_at : datetime;
    is_template : bool
}.

#[global] Instance VehicleChecklist_eq_dec : EqDecision t.
Proof. solve_decision. Defined.
End VehicleChecklist.

Module VehicleChecklistCreate.
Record t := mk {
    title : string;
    vehicle_info : VehicleInfo.t;
    engine_info : EngineInfo.t;
    is_template : option bool
}.
End VehicleChecklistCreate.

Module VehicleChecklistUpdate.
Record t := mk {
    title : option string;
    vehicle_info : option VehicleInfo.t;
    engine_info : option EngineInfo.t;
    tasks : option (list ChecklistItem.t);
    parts_to_install : option (list ChecklistItem.t);
    maintenance : option (list ChecklistItem.t);
    research_items : option (list ChecklistItem.t);
    photos : option (list Photo.t)
}.
End VehicleChecklistUpdate.

(** ** Outcomes, the ambient sources and the handler monad *)

Record HTTPException := mkHTTPException {
  status_code : Z;
  detail : string
}.

Inductive Outcome (A : Type) : Type :=
| Return (a : A)
| Raise (e : HTTPException).
Arguments Return {A} a.
Arguments Raise {A} e.

(** An exception that no handler catches (a pydantic [ValidationError],
    a [TypeError]) reaches the client as a plain 500 response. *)
Definition internal_server_error : HTTPException :=
  mkHTTPException 500 "Internal Server Error".

(** What [datetime.utcnow()] and [uuid.uuid4()] answer on their n-th
    call since the process started. *)
Record Env := mkEnv {
  utcnow_at : nat -> datetime;
  uuid4_at : nat -> string
}.

(** The collection [db.checklists], in the store's natural order, and
    the number of readings taken so far from each ambient source. *)
Record World := mkWorld {
  checklists : list VehicleChecklist.t;
  clock_calls : nat;
  uuid_calls : nat
}.

Definition M (A : Type) : Type := World -> Outcome A * World.

#[global] Instance M_ret : MRet M := fun A a w => (Return a, w).

#[global] Instance M_bind : MBind M := fun A B f m w =>
  match m w with
  | (Return a, w') => f a w'
  | (Raise e, w') => (Raise e, w')
  end.

Definition raise {A : Type} (e : HTTPException) : M A :=
  fun w => (Raise e, w).

(** ** The document store (the part of the collection API the handlers use) *)

(** The collection holds BSON documents.  A BSON date is a whole number
    of milliseconds, so the driver drops the microseconds of every
    [datetime] it writes; strings, booleans and nulls are kept as they
    are. *)
Definition bson_date (t : datetime) : datetime := 1000 * (t / 1000).

Definition bson_item (item : ChecklistItem.t) : ChecklistItem.t :=
  ChecklistItem.mk (ChecklistItem.id item) (ChecklistItem.text item)
    (ChecklistItem.completed item) (bson_date <$> ChecklistItem.completed_at item).

Definition bson_photo (photo : Photo.t) : Photo.t :=
  Photo.mk (Photo.id photo) (Photo.base64_data photo) (Photo.description photo)
    (bson_date (Photo.timestamp photo)).

Definition bson_checklist (c : VehicleChecklist.t) : VehicleChecklist.t :=
  VehicleChecklist.mk (VehicleChecklist.id c) (VehicleChecklist.title c)
    (VehicleChecklist.vehicle_info c) (VehicleChecklist.engine_info c)
    (bson_item <$> VehicleChecklist.tasks c)
    (bson_item <$> VehicleChecklist.parts_to_install c)
    (bson_item <$> VehicleChecklist.maintenance c)
    (bson_item <$> VehicleChecklist.research_items c)
    (bson_photo <$> VehicleChecklist.photos c)
    (bson_date (VehicleChecklist.created_at c))
    (bson_date (VehicleChecklist.updated_at c))
    (VehicleChecklist.is_template c).

(** The four keys of a checklist document that hold item lists. *)
Inductive ItemsKey := K_tasks | K_parts_to_install | K_maintenance | K_research_items.

#[global] Instance ItemsKey_eq_dec : EqDecision ItemsKey.
Proof. solve_decision. Defined.

Definition items_key (section : string) : option ItemsKey :=
  if String.eqb section "tasks" then Some K_tasks
  else if String.eqb section "parts_to_install" then Some K_parts_to_install
  else if String.eqb section "maintenance" then Some K_maintenance
  else if String.eqb section "research_items" then Some K_research_items
  else None.

Definition items_at (k : ItemsKey) (c : VehicleChecklist.t) : list ChecklistItem.t :=
  match k with
  | K_tasks => VehicleChecklist.tasks c
  | K_parts_to_install => VehicleChecklist.parts_to_install c
  | K_maintenance => VehicleChecklist.maintenance c
  | K_research_items => VehicleChecklist.research_items c
  end.

(** [checklist.get(section, [])] on a document read from the store. *)
Definition doc_get (section : string) (c : VehicleChecklist.t) : list ChecklistItem.t :=
  match items_key section with
  | Some k => items_at k c
  | None => []
  end.

Definition with_title (v : string) (c : VehicleChecklist.t) : VehicleChecklist.t :=
  let 'VehicleChecklist.mk i _ vi ei ta pa ma re ph ca ua it := c in
  VehicleChecklist.mk i v vi ei ta pa ma re ph ca ua it.

Definition with_vehicle_info (v : VehicleInfo.t) (c : VehicleChecklist.t) : VehicleChecklist.t :=
  let 'VehicleChecklist.mk i ti _ ei ta pa ma re ph ca ua it := c in
  VehicleChecklist.mk i ti v ei ta pa ma re ph ca ua it.

Definition with_engine_info (v : EngineInfo.t) (c : VehicleChecklist.t) : VehicleChecklist.t :=
  let 'VehicleChecklist.mk i ti vi _ ta pa ma re ph ca ua it := c in
  VehicleChecklist.mk i ti vi v ta pa ma re ph ca ua it.

Definition with_items (k : ItemsKey) (v : list ChecklistItem.t) (c : VehicleChecklist.t)
  : VehicleChecklist.t :=
  let 'VehicleChecklist.mk i ti vi ei ta pa ma re ph ca ua it := c in
  match k with
  | K_tasks => VehicleChecklist.mk i ti vi ei v pa ma re ph ca ua it
  | K_parts_to_install => VehicleChecklist.mk i ti vi ei ta v ma re ph ca ua it
  | K_maintenance => VehicleChecklist.mk i ti vi ei ta pa v re ph ca ua it
  | K_research_items => VehicleChecklist.mk i ti vi ei ta pa ma v ph ca ua it
  end.

Definition with_photos (v : list Photo.t) (c : VehicleChecklist.t) : VehicleChecklist.t :=
  let 'VehicleChecklist.mk i ti vi ei ta pa ma re _ ca ua it := c in
  VehicleChecklist.mk i ti vi ei ta pa ma re v ca ua it.

Definition with_updated_at (v : datetime) (c : VehicleChecklist.t) : VehicleChecklist.t :=
  let 'VehicleChecklist.mk i ti vi ei ta pa ma re ph ca _ it := c in
  VehicleChecklist.mk i ti vi ei ta pa ma re ph ca v it.

(** One entry of a [$set] document.  The item lists are addressed by
    the section string, as the handlers do; the other keys are fixed in
    the source. *)
Inductive SetField :=
| set_title (v : string)
| set_vehicle_info (v : VehicleInfo.t)
| set_engine_info (v : EngineInfo.t)
| set_section (section : string) (v : list ChecklistItem.t)
| set_photos (v : list Photo.t)
| set_updated_at (v : datetime).

(** One entry of a [$push] document. *)
Inductive PushField :=
| push_section (section : string) (v : ChecklistItem.t)
| push_photos (v : Photo.t).

Record UpdateDoc := mkUpdateDoc {
  dollar_set : list SetField;
  dollar_push : list PushField
}.

(** The values of an update document are written in their BSON form.
    A section string that is not one of the four item-list keys names no
    field of the document type; the handlers reject such a string before
    they reach the store (see [valid_sections_items_key]). *)
Definition apply_set (f : SetField) (c : VehicleChecklist.t) : VehicleChecklist.t :=
  match f with
  | set_title v => with_title v c
  | set_vehicle_info v => with_vehicle_info v c
  | set_engine_info v => with_engine_info v c
  | set_section section v =>
      match items_key section with
      | Some k => with_items k (bson_item <$> v) c
      | None => c
      end
  | set_photos v => with_photos (bson_photo <$> v) c
  | set_updated_at v => with_updated_at (bson_date v) c
  end.

Definition apply_push (f : PushField) (c : VehicleChecklist.t) : VehicleChecklist.t :=
  match f with
  | push_section section v =>
      match items_key section with
      | Some k => with_items k (items_at k c ++ [bson_item v]) c
      | None => c
      end
  | push_photos v => with_photos (VehicleChecklist.photos c ++ [bson_photo v]) c
  end.

Definition apply_update (u : UpdateDoc) (c : VehicleChecklist.t) : VehicleChecklist.t :=
  fold_left (fun d f => apply_push f d) (dollar_push u)
    (fold_left (fun d f => apply_set f d) (dollar_set u) c).

(** [find_one({"id": cid})]: the first document whose id matches. *)
Fixpoint find_one (cid : string) (coll : list VehicleChecklist.t) : option VehicleChecklist.t :=
  match coll with
  | [] => None
  | c :: rest =>
      if String.eqb (VehicleChecklist.id c) cid then Some c else find_one cid rest
  end.

(** [update_one({"id": cid}, u)]: the first matching document is
    rewritten in place; the count is that of the documents whose content
    actually changed. *)
Fixpoint update_one (cid : string) (u : UpdateDoc) (coll : list VehicleChecklist.t)
  : nat * list VehicleChecklist.t :=
  match coll with
  | [] => (0%nat, [])
  | c :: rest =>
      if String.eqb (VehicleChecklist.id c) cid then
        let c' := apply_update u c in
        (if decide (c' = c) then 0%nat else 1%nat, c' :: rest)
      else
        let '(n, rest') := update_one cid u rest in (n, c :: rest')
  end.

(** [delete_one({"id": cid})]: the first matching document is removed. *)
Fixpoint delete_one (cid : string) (coll : list VehicleChecklist.t)
  : nat * list VehicleChecklist.t :=
  match coll with
  | [] => (0%nat, [])
  | c :: rest =>
      if String.eqb (VehicleChecklist.id c) cid then (1%nat, rest)
      else let '(n, rest') := delete_one cid rest in (n, c :: rest')
  end.

(** [find(query).to_list(n)] for the two queries the source builds:
    the empty one and [{"is_template": b}]. *)
Definition find_to_list (query : option bool) (n : nat) (coll : list VehicleChecklist.t)
  : list VehicleChecklist.t :=
  take n (List.filter (fun c => match query with
                                | None => true
                                | Some b => Bool.eqb (VehicleChecklist.is_template c) b
                                end) coll).

Definition db_find_one (cid : string) : M (option VehicleChecklist.t) := fun w =>
  (Return (find_one cid (checklists w)), w).

Definition db_find (query : option bool) (n : nat) : M (list VehicleChecklist.t) := fun w =>
  (Return (find_to_list query n (checklists w)), w).

(** [insert_one] writes the document in its BSON form.  Its result
    carries the [_id] the store generated (the document's position stands
    for it); the typed documents do not keep [_id], as pydantic drops it
    when a document is read back. *)
Definition db_insert_one (doc : VehicleChecklist.t) : M (option nat) := fun w =>
  (Return (Some (List.length (checklists w))),
   mkWorld (checklists w ++ [bson_checklist doc])%list (clock_calls w) (uuid_calls w)).

Definition db_update_one (cid : string) (u : UpdateDoc) : M nat := fun w =>
  let '(n, coll) := update_one cid u (checklists w) in
  (Return n, mkWorld coll (clock_calls w) (uuid_calls w)).

Definition db_delete_one (cid : string) : M nat := fun w =>
  let '(n, coll) := delete_one cid (checklists w) in
  (Return n, mkWorld coll (clock_calls w) (uuid_calls w)).

(** ** The request handlers *)

Section Handlers.
Variable env : Env.

Definition utcnow : M datetime := fun w =>
  (Return (utcnow_at env (clock_calls w)),
   mkWorld (checklists w) (S (clock_calls w)) (uuid_calls w)).

Definition uuid4 : M string := fun w =>
  (Return (uuid4_at env (uuid_calls w)),
   mkWorld (checklists w) (clock_calls w) (S (uuid_calls w))).

(** The [VehicleChecklist] built from [checklist_data.dict()]: the three default
    factories run in field order ([id], [created_at], [updated_at]); a
    null [is_template] is then refused by the [bool] field, and the
    validation error is not caught by the handler. *)
Definition new_VehicleChecklist (d : VehicleChecklistCreate.t) : M VehicleChecklist.t :=
  id ← uuid4;
  created_at ← utcnow;
  updated_at ← utcnow;
  match VehicleChecklistCreate.is_template d with
  | Some is_template =>
      mret (VehicleChecklist.mk id
              (VehicleChecklistCreate.title d)
              (VehicleChecklistCreate.vehicle_info d)
              (VehicleChecklistCreate.engine_info d)
              [] [] [] [] [] created_at updated_at is_template)
  | None => raise internal_server_error
  end.

(** [ChecklistItem(text=item_text)] *)
Definition new_ChecklistItem (text : string) : M ChecklistItem.t :=
  id ← uuid4;
  mret (ChecklistItem.mk id text false None).

Definition create_checklist (checklist_data : VehicleChecklistCreate.t)
  : M VehicleChecklist.t :=
  checklist ← new_VehicleChecklist checklist_data;
  inserted_id ← db_insert_one checklist;
  match inserted_id with
  | Some _ => mret checklist
  | None => raise (mkHTTPException 400 "Failed to create checklist")
  end.

Definition get_checklists (is_template : option bool) : M (list VehicleChecklist.t) :=
  db_find is_template 1000.

Definition get_checklist (checklist_id : string) : M VehicleChecklist.t :=
  checklist ← db_find_one checklist_id;
  match checklist with
  | None => raise (mkHTTPException 404 "Checklist not found")
  | Some c => mret c
  end.

(** [{k: v for k, v in update_data.dict().items() if v is not None}] *)
Definition dict_not_none (update_data : VehicleChecklistUpdate.t) : list SetField :=
  omap (fun kv : option SetField => kv)
    [ set_title <$> VehicleChecklistUpdate.title update_data;
      set_vehicle_info <$> VehicleChecklistUpdate.vehicle_info update_data;
      set_engine_info <$> VehicleChecklistUpdate.engine_info update_data;
      set_section "tasks" <$> VehicleChecklistUpdate.tasks update_data;
      set_section "parts_to_install" <$> VehicleChecklistUpdate.parts_to_install update_data;
      set_section "maintenance" <$> VehicleChecklistUpdate.maintenance update_data;
      set_section "research_items" <$> VehicleChecklistUpdate.research_items update_data;
      set_photos <$> VehicleChecklistUpdate.photos update_data ].

Definition update_checklist (checklist_id : string) (update_data : VehicleChecklistUpdate.t)
  : M VehicleChecklist.t :=
  existing ← db_find_one checklist_id;
  match existing with
  | None => raise (mkHTTPException 404 "Checklist not found")
  | Some _ =>
      now ← utcnow;
      let update_dict := (dict_not_none update_data ++ [set_updated_at now])%list in
      modified_count ← db_update_one checklist_id (mkUpdateDoc update_dict []);
      if Nat.eqb modified_count 0 then
        raise (mkHTTPException 400 "Failed to update checklist")
      else
        updated_checklist ← db_find_one checklist_id;
        match updated_checklist with
        | Some c => mret c
        | None => raise internal_server_error
        end
  end.

Definition delete_checklist (checklist_id : string) : M string :=
  deleted_count ← db_delete_one checklist_id;
  if Nat.eqb deleted_count 0 then
    raise (mkHTTPException 404 "Checklist not found")
  else mret "Checklist deleted successfully".

Definition valid_sections : list string :=
  ["tasks"; "parts_to_install"; "maintenance"; "research_items"].

Definition invalid_section : HTTPException :=
  mkHTTPException 400
    "Invalid section. Must be one of: ['tasks', 'parts_to_install', 'maintenance', 'research_items']".

Definition add_checklist_item (checklist_id section item_text : string)
  : M (string * ChecklistItem.t) :=
  if bool_decide (section ∉ valid_sections) then raise invalid_section
  else
    existing ← db_find_one checklist_id;
    match existing with
    | None => raise (mkHTTPException 404 "Checklist not found")
    | Some _ =>
        new_item ← new_ChecklistItem item_text;
        now ← utcnow;
        modified_count ← db_update_one checklist_id
          (mkUpdateDoc [set_updated_at now] [push_section section new_item]);
        if Nat.eqb modified_count 0 then
          raise (mkHTTPException 400 "Failed to add item")
        else mret ("Item added successfully", new_item)
    end.

(** The [for] loop of [toggle_checklist_item]: the first item whose id
    matches is flipped in place and the loop breaks; the flag tells
    whether one was found.  The clock is read only when the item becomes
    completed. *)
Fixpoint toggle_loop (item_id : string) (items : list ChecklistItem.t)
  : M (list ChecklistItem.t * bool) :=
  match items with
  | [] => mret ([], false)
  | item :: rest =>
      if String.eqb (ChecklistItem.id item) item_id then
        let completed := negb (ChecklistItem.completed item) in
        completed_at ← (if completed then now ← utcnow; mret (Some now) else mret None);
        mret (ChecklistItem.mk (ChecklistItem.id item) (ChecklistItem.text item)
                completed completed_at :: rest, true)
      else
        '(rest', item_found) ← toggle_loop item_id rest;
        mret (item :: rest', item_found)
  end.

Definition toggle_checklist_item (checklist_id section item_id : string) : M string :=
  if bool_decide (section ∉ valid_sections) then raise invalid_section
  else
    checklist ← db_find_one checklist_id;
    match checklist with
    | None => raise (mkHTTPException 404 "Checklist not found")
    | Some c =>
        '(items, item_found) ← toggle_loop item_id (doc_get section c);
        if negb item_found then raise (mkHTTPException 404 "Item not found")
        else
          now ← utcnow;
          modified_count ← db_update_one checklist_id
            (mkUpdateDoc [set_section section items; set_updated_at now] []);
          if Nat.eqb modified_count 0 then
            raise (mkHTTPException 400 "Failed to update item")
          else mret "Item toggled successfully"
    end.

Definition add_photo (checklist_id : string) (photo_data : Photo.t)
  : M (string * Photo.t) :=
  existing ← db_find_one checklist_id;
  match existing with
  | None => raise (mkHTTPException 404 "Checklist not found")
  | Some _ =>
      now ← utcnow;
      modified_count ← db_update_one checklist_id
        (mkUpdateDoc [set_updated_at now] [push_photos photo_data]);
      if Nat.eqb modified_count 0 then
        raise (mkHTTPException 400 "Failed to add photo")
      else mret ("Photo added successfully", photo_data)
  end.

End Handlers.

(** ** Requests, as the router dispatches them *)

Inductive Request :=
| POST_checklists (checklist_data : VehicleChecklistCreate.t)
| GET_checklists (is_template : option bool)
| GET_checklist (checklist_id : string)
| PUT_checklist (checklist_id : string) (update_data : VehicleChecklistUpdate.t)
| DELETE_checklist (checklist_id : string)
| POST_item (checklist_id section item_text : string)
| PUT_toggle (checklist_id section item_id : string)
| POST_photo (checklist_id : string) (photo_data : Photo.t).

Inductive Response :=
| one_checklist (c : VehicleChecklist.t)
| many_checklists (l : list VehicleChecklist.t)
| message (m : string)
| message_item (m : string) (item : ChecklistItem.t)
| message_photo (m : string) (photo : Photo.t).

Definition respond {A : Type} (f : A -> Response) (m : M A) : M Response :=
  a ← m; mret (f a).

Definition dispatch (env : Env) (r : Request) : M Response :=
  match r with
  | POST_checklists d => respond one_checklist (create_checklist env d)
  | GET_checklists q => respond many_checklists (get_checklists q)
  | GET_checklist cid => respond one_checklist (get_checklist cid)
  | PUT_checklist cid u => respond one_checklist (update_checklist env cid u)
  | DELETE_checklist cid => respond message (delete_checklist cid)
  | POST_item cid section text =>
      respond (fun r => message_item r.1 r.2) (add_checklist_item env cid section text)
  | PUT_toggle cid section item_id =>
      respond message (toggle_checklist_item env cid section item_id)
  | POST_photo cid p => respond (fun r => message_photo r.1 r.2) (add_photo env cid p)
  end.

(** The world after one request, and after a sequence of them. *)
Definition serve (env : Env) (r : Request) (w : World) : World :=
  (dispatch env r w).2.

Definition serve_all (env : Env) (rs : list Request) (w : World) : World :=
  fold_left (fun w r => serve env r w) rs w.

(** The checklist a request mutates, for the four mutating routes. *)
Definition mutation_target (r : Request) : option string :=
  match r with
  | PUT_checklist cid _ | POST_item cid _ _ | PUT_toggle cid _ _ | POST_photo cid _ =>
      Some cid
  | _ => None
  end.

Definition lookup_checklist (checklist_id : string) (w : World) : option VehicleChecklist.t :=
  find_one checklist_id (checklists w).

(** The first item of a list that carries a given id: the one the toggle
    loop acts on. *)
Fixpoint find_item (item_id : string) (items : list ChecklistItem.t) : option ChecklistItem.t :=
  match items with
  | [] => None
  | item :: rest =>
      if String.eqb (ChecklistItem.id item) item_id then Some item
      else find_item item_id rest
  end.

(** ** The properties under study *)

(** [completed_at] is non-null exactly when [completed] is true. *)
Definition item_consistent (item : ChecklistItem.t) : bool :=
  match ChecklistItem.completed_at item with
  | Some _ => ChecklistItem.completed item
  | None => negb (ChecklistItem.completed item)
  end.

Definition checklist_consistent (c : VehicleChecklist.t) : bool :=
  forallb item_consistent (VehicleChecklist.tasks c)
  && forallb item_consistent (VehicleChecklist.parts_to_install c)
  && forallb item_consistent (VehicleChecklist.maintenance c)
  && forallb item_consistent (VehicleChecklist.research_items c).

Definition store_consistent (w : World) : bool :=
  forallb checklist_consistent (checklists w).

Definition items_opt_consistent (l : option (list ChecklistItem.t)) : bool :=
  match l with
  | Some items => forallb item_consistent items
  | None => true
  end.

Definition payload_consistent (u : VehicleChecklistUpdate.t) : bool :=
  items_opt_consistent (VehicleChecklistUpdate.tasks u)
  && items_opt_consistent (VehicleChecklistUpdate.parts_to_install u)
  && items_opt_consistent (VehicleChecklistUpdate.maintenance u)
  && items_opt_consistent (VehicleChecklistUpdate.research_items u).

Definition request_consistent (r : Request) : bool :=
  match r with
  | PUT_checklist _ u => payload_consistent u
  | _ => true
  end.

(** The assumptions on the ambient sources: the clock never runs
    backwards, and the uuid generator never repeats itself. *)
Definition clock_monotone (env : Env) : Prop :=
  forall m n : nat, (m <= n)%nat -> utcnow_at env m <= utcnow_at env n.

Definition uuid_injective (env : Env) : Prop :=
  forall m n : nat, uuid4_at env m = uuid4_at env n -> m = n.

(** A world the handlers can have produced: checklist ids are pairwise
    distinct, none of them will be generated again, and no stored
    [updated_at] lies ahead of the clock as the store would keep it. *)
Record world_ok (env : Env) (w : World) : Prop := mk_world_ok {
  ids_nodup : NoDup (VehicleChecklist.id <$> checklists w);
  ids_past : forall n c, (uuid_calls w <= n)%nat -> c ∈ checklists w ->
             VehicleChecklist.id c <> uuid4_at env n;
  stamps_past : forall c, c ∈ checklists w ->
                VehicleChecklist.updated_at c
                <= bson_date (utcnow_at env (clock_calls w))
}.

(** The part of [world_ok] that concerns ids only. *)
Definition ids_ok (env : Env) (w : World) : Prop :=
  NoDup (VehicleChecklist.id <$> checklists w)
  /\ forall n c, (uuid_calls w <= n)%nat -> c ∈ checklists w ->
                 VehicleChecklist.id c <> uuid4_at env n.

(** A checklist id that is neither stored nor still to be generated. *)
Definition retired (env : Env) (w : World) (checklist_id : string) : Prop :=
  lookup_checklist checklist_id w = None
  /\ forall n, (uuid_calls w <= n)%nat -> uuid4_at env n <> checklist_id.

(** The claim that two toggles in a row give an item back both its
    [completed] flag and its [completed_at] value. *)
Definition toggle_twice_restores (env : Env) (w : World)
    (checklist_id section item_id : string) : Prop :=
  forall c item,
    lookup_checklist checklist_id w = Some c ->
    find_item item_id (doc_get section c) = Some item ->
    let w2 := serve env (PUT_toggle checklist_id section item_id)
                (serve env (PUT_toggle checklist_id section item_id) w) in
    exists c2 item2,
      lookup_checklist checklist_id w2 = Some c2
      /\ find_item item_id (doc_get section c2) = Some item2
      /\ ChecklistItem.completed item2 = ChecklistItem.completed item
      /\ ChecklistItem.completed_at item2 = ChecklistItem.completed_at item.

(** ** Sample data *)

Module Sample.

(** The clock starts at 100 ms and advances by one millisecond per
    reading; the n-th uuid is the decimal numeral of n. *)
Definition env : Env :=
  mkEnv (fun n => 100000 + 1000 * Z.of_nat n) (fun n => pretty n).

(** A clock that advances by a quarter of a millisecond per reading. *)
Definition fine : Env :=
  mkEnv (fun n => 100000 + 250 * Z.of_nat n) (fun n => pretty n).

Definition mustang : VehicleInfo.t :=
  VehicleInfo.mk "Ford" "Mustang" (Some "") "1970" (Some "") (Some "") (Some "")
    (Some "") (Some "") (Some "") (Some "") (Some "") (Some "") (Some "") (Some "")
    (Some "") (Some "") (Some "") (Some "") (Some "") (Some "") (Some "") (Some "")
    (Some "") (Some "") (Some "").

Definition no_engine : EngineInfo.t :=
  EngineInfo.mk (Some "") (Some "") (Some "") (Some "") (Some "") (Some "") (Some "") (Some "").

Definition create_mustang : VehicleChecklistCreate.t :=
  VehicleChecklistCreate.mk "1970 Mustang" mustang no_engine (Some false).

Definition empty_world : World := mkWorld [] 0 0.

(** One checklist, id ["0"], created at 100 ms / 101 ms. *)
Definition w1 : World := serve env (POST_checklists create_mustang) empty_world.

(** ... with one open task, id ["1"]. *)
Definition w2 : World := serve env (POST_item "0" "tasks" "Replace timing chain") w1.

(** The same creation under the quarter-millisecond clock: the readings
    are 100000 and 100250 microseconds. *)
Definition w1_fine : World := serve fine (POST_checklists create_mustang) empty_world.

Definition task : ChecklistItem.t :=
  ChecklistItem.mk "1" "Replace timing chain" false None.

(** The checklist as stored in [w2]. *)
Definition checklist2 : VehicleChecklist.t :=
  VehicleChecklist.mk "0" "1970 Mustang" mustang no_engine [task] [] [] [] [] 100000 102000 false.

(** ... which has then been completed. *)
Definition w3 : World := serve env (PUT_toggle "0" "tasks" "1") w2.

Definition no_change : VehicleChecklistUpdate.t :=
  VehicleChecklistUpdate.mk None None None None None None None None.

Definition retitle : VehicleChecklistUpdate.t :=
  VehicleChecklistUpdate.mk (Some "1970 Mustang Mach 1") None None None None None None None.

(** A clock that has stopped at 102 ms. *)
Definition stalled : Env := mkEnv (fun _ => 102000) (fun n => pretty n).

Definition bay_photo : Photo.t := Photo.mk "p1" "aGVsbG8=" (Some "engine bay") 90000.

(** An update payload whose only task is open yet carries a completion time. *)
Definition stale_task : ChecklistItem.t :=
  ChecklistItem.mk "t1" "Bleed brakes" false (Some 7000).

Definition replace_tasks : VehicleChecklistUpdate.t :=
  VehicleChecklistUpdate.mk None None None (Some [stale_task]) None None None None.

End Sample.

(** * Facts about the store *)

Section StoreFacts.

Lemma bson_date_le t : bson_date t <= t.
Proof. unfold bson_date. apply Z.mul_div_le. lia. Qed.

Lemma bson_date_mono a b : a <= b -> bson_date a <= bson_date b.
Proof.
  intros H. unfold bson_date. apply Z.mul_le_mono_nonneg_l; [lia|].
  apply Z.div_le_mono; lia.
Qed.

Lemma bson_date_idem t : bson_date (bson_date t) = bson_date t.
Proof.
  unfold bson_date. f_equal. rewrite Z.mul_comm. apply Z.div_mul. lia.
Qed.

Lemma item_consistent_bson item :
  item_consistent (bson_item item) = item_consistent item.
Proof. unfold item_consistent, bson_item. simpl. by destruct (ChecklistItem.completed_at item). Qed.

Lemma items_consistent_bson items :
  forallb item_consistent (bson_item <$> items) = forallb item_consistent items.
Proof.
  induction items as [|x l IH]; [done|].
  rewrite fmap_cons. cbn [forallb]. by rewrite item_consistent_bson, IH.
Qed.

Lemma bson_item_open item :
  ChecklistItem.completed_at item = None -> bson_item item = item.
Proof. destruct item as [i t b s]. simpl. by intros ->. Qed.

Lemma apply_set_frame f c :
  VehicleChecklist.id (apply_set f c) = VehicleChecklist.id c
  /\ VehicleChecklist.created_at (apply_set f c) = VehicleChecklist.created_at c
  /\ VehicleChecklist.is_template (apply_set f c) = VehicleChecklist.is_template c.
Proof.
  destruct c, f as [v|v|v|section v|v|v]; simpl; auto.
  destruct (items_key section) as [[]|]; simpl; auto.
Qed.

Lemma apply_push_frame f c :
  VehicleChecklist.id (apply_push f c) = VehicleChecklist.id c
  /\ VehicleChecklist.created_at (apply_push f c) = VehicleChecklist.created_at c
  /\ VehicleChecklist.is_template (apply_push f c) = VehicleChecklist.is_template c.
Proof.
  destruct c, f as [section v|v]; simpl; auto.
  destruct (items_key section) as [[]|]; simpl; auto.
Qed.

Lemma apply_update_frame u c :
  VehicleChecklist.id (apply_update u c) = VehicleChecklist.id c
  /\ VehicleChecklist.created_at (apply_update u c) = VehicleChecklist.created_at c
  /\ VehicleChecklist.is_template (apply_update u c) = VehicleChecklist.is_template c.
Proof.
  unfold apply_update.
  destruct u as [sets pushes]; simpl.
  assert (Hs : forall l d,
    VehicleChecklist.id (fold_left (fun d f => apply_set f d) l d) = VehicleChecklist.id d
    /\ VehicleChecklist.created_at (fold_left (fun d f => apply_set f d) l d)
       = VehicleChecklist.created_at d
    /\ VehicleChecklist.is_template (fold_left (fun d f => apply_set f d) l d)
       = VehicleChecklist.is_template d).
  { induction l as [|f l IH]; intros d; simpl; [auto|].
    destruct (IH (apply_set f d)) as (-> & -> & ->). apply apply_set_frame. }
  assert (Hp : forall l d,
    VehicleChecklist.id (fold_left (fun d f => apply_push f d) l d) = VehicleChecklist.id d
    /\ VehicleChecklist.created_at (fold_left (fun d f => apply_push f d) l d)
       = VehicleChecklist.created_at d
    /\ VehicleChecklist.is_template (fold_left (fun d f => apply_push f d) l d)
       = VehicleChecklist.is_template d).
  { induction l as [|f l IH]; intros d; simpl; [auto|].
    destruct (IH (apply_push f d)) as (-> & -> & ->). apply apply_push_frame. }
  destruct (Hp pushes (fold_left (fun d f => apply_set f d) sets c)) as (-> & -> & ->).
  apply Hs.
Qed.

Lemma apply_update_id u c :
  VehicleChecklist.id (apply_update u c) = VehicleChecklist.id c.
Proof. apply apply_update_frame. Qed.

Lemma find_one_id cid coll c :
  find_one cid coll = Some c -> VehicleChecklist.id c = cid.
Proof.
  induction coll as [|d coll IH]; simpl; [discriminate|].
  destruct (String.eqb (VehicleChecklist.id d) cid) eqn:E.
  - intros [= <-]. by apply String.eqb_eq.
  - exact IH.
Qed.

Lemma find_one_elem cid coll c :
  find_one cid coll = Some c -> c ∈ coll.
Proof.
  induction coll as [|d coll IH]; simpl; [discriminate|].
  destruct (String.eqb (VehicleChecklist.id d) cid).
  - intros [= <-]. left.
  - intros H. right. auto.
Qed.

Lemma find_one_None cid coll :
  find_one cid coll = None <-> cid ∉ (VehicleChecklist.id <$> coll).
Proof.
  induction coll as [|d coll IH]; simpl.
  - split; [intros _; apply not_elem_of_nil | done].
  - rewrite not_elem_of_cons.
    destruct (String.eqb (VehicleChecklist.id d) cid) eqn:E.
    + apply String.eqb_eq in E. split; [discriminate|]. intros [H _]. by destruct H.
    + apply String.eqb_neq in E. rewrite IH. split; [|tauto]. intros H; split; [congruence|done].
Qed.

Lemma find_one_app cid coll c :
  find_one cid (coll ++ [c]) =
  match find_one cid coll with
  | Some d => Some d
  | None => if String.eqb (VehicleChecklist.id c) cid then Some c else None
  end.
Proof.
  induction coll as [|d coll IH]; simpl; [done|].
  by destruct (String.eqb (VehicleChecklist.id d) cid).
Qed.

Lemma update_one_missing cid u coll :
  find_one cid coll = None -> update_one cid u coll = (0%nat, coll).
Proof.
  induction coll as [|d coll IH]; simpl; [done|].
  destruct (String.eqb (VehicleChecklist.id d) cid); [discriminate|].
  intros H. by rewrite (IH H).
Qed.

Lemma update_one_found cid u coll c :
  find_one cid coll = Some c ->
  (update_one cid u coll).1 = (if decide (apply_update u c = c) then 0%nat else 1%nat)
  /\ find_one cid (update_one cid u coll).2 = Some (apply_update u c).
Proof.
  induction coll as [|d coll IH]; simpl; [discriminate|].
  destruct (String.eqb (VehicleChecklist.id d) cid) eqn:E.
  - intros [= <-]. simpl. by rewrite apply_update_id, E.
  - intros H. destruct (IH H) as [IH1 IH2].
    destruct (update_one cid u coll) as [n rest]. simpl in *. by rewrite E.
Qed.

Lemma update_one_other cid cid' u coll :
  cid' <> cid ->
  find_one cid' (update_one cid u coll).2 = find_one cid' coll.
Proof.
  intros Hne. induction coll as [|d coll IH]; simpl; [done|].
  destruct (String.eqb (VehicleChecklist.id d) cid) eqn:E.
  - simpl. rewrite apply_update_id. apply String.eqb_eq in E.
    assert (String.eqb (VehicleChecklist.id d) cid' = false) as ->
      by (apply String.eqb_neq; congruence).
    done.
  - destruct (update_one cid u coll) as [n rest]. simpl in *. by rewrite IH.
Qed.

Lemma update_one_ids cid u coll :
  VehicleChecklist.id <$> (update_one cid u coll).2 = VehicleChecklist.id <$> coll.
Proof.
  induction coll as [|d coll IH]; simpl; [done|].
  destruct (String.eqb (VehicleChecklist.id d) cid).
  - simpl. by rewrite apply_update_id.
  - destruct (update_one cid u coll) as [n rest]. simpl in *. by f_equal.
Qed.

Lemma update_one_elem cid u coll c' :
  c' ∈ (update_one cid u coll).2 ->
  c' ∈ coll \/ exists c, find_one cid coll = Some c /\ c' = apply_update u c.
Proof.
  induction coll as [|d coll IH]; simpl; [by left|].
  destruct (String.eqb (VehicleChecklist.id d) cid).
  - simpl. intros [->|H]%elem_of_cons.
    + right. eauto.
    + left. by right.
  - destruct (update_one cid u coll) as [n rest]. simpl in *.
    intros [->|H]%elem_of_cons.
    + left. left.
    + destruct (IH H) as [?|?]; [left; by right | by right].
Qed.

Lemma delete_one_elem cid coll c :
  c ∈ (delete_one cid coll).2 -> c ∈ coll.
Proof.
  induction coll as [|d coll IH]; simpl; [done|].
  destruct (String.eqb (VehicleChecklist.id d) cid).
  - simpl. intros H. by right.
  - destruct (delete_one cid coll) as [n rest]. simpl in *.
    intros [->|H]%elem_of_cons; [left | right; auto].
Qed.

Lemma delete_one_other cid cid' coll :
  cid' <> cid -> find_one cid' (delete_one cid coll).2 = find_one cid' coll.
Proof.
  intros Hne. induction coll as [|d coll IH]; simpl; [done|].
  destruct (String.eqb (VehicleChecklist.id d) cid) eqn:E.
  - simpl. apply String.eqb_eq in E.
    assert (String.eqb (VehicleChecklist.id d) cid' = false) as ->
      by (apply String.eqb_neq; congruence).
    done.
  - destruct (delete_one cid coll) as [n rest]. simpl in *. by rewrite IH.
Qed.

Lemma delete_one_nodup cid coll :
  NoDup (VehicleChecklist.id <$> coll) ->
  NoDup (VehicleChecklist.id <$> (delete_one cid coll).2)
  /\ find_one cid (delete_one cid coll).2 = None.
Proof.
  induction coll as [|d coll IH]; simpl; [intros; split; [constructor|done]|].
  rewrite NoDup_cons. intros [Hd Hn].
  destruct (String.eqb (VehicleChecklist.id d) cid) eqn:E.
  - simpl. split; [done|]. apply String.eqb_eq in E. subst cid.
    by apply find_one_None.
  - destruct (IH Hn) as [IH1 IH2].
    pose proof (delete_one_elem cid coll) as Hsub.
    destruct (delete_one cid coll) as [n rest]. simpl in *.
    rewrite E. split; [|done]. apply NoDup_cons. split; [|done].
    intros (x & Hx & Hin)%list_elem_of_fmap. apply Hd.
    apply list_elem_of_fmap. exists x. split; [done|]. by apply Hsub.
Qed.

End StoreFacts.

(** * Facts about the handlers *)

Ltac run_handler :=
  unfold mbind, M_bind, mret, M_ret, raise, db_find_one, db_update_one,
    db_insert_one, db_delete_one, db_find, utcnow, uuid4; simpl.

Lemma valid_sections_items_key section :
  section ∈ valid_sections <-> is_Some (items_key section).
Proof.
  unfold valid_sections, items_key.
  rewrite !elem_of_cons, elem_of_nil.
  destruct (String.eqb section "tasks") eqn:E1;
    [apply String.eqb_eq in E1; split; eauto | apply String.eqb_neq in E1].
  destruct (String.eqb section "parts_to_install") eqn:E2;
    [apply String.eqb_eq in E2; split; eauto | apply String.eqb_neq in E2].
  destruct (String.eqb section "maintenance") eqn:E3;
    [apply String.eqb_eq in E3; split; eauto | apply String.eqb_neq in E3].
  destruct (String.eqb section "research_items") eqn:E4;
    [apply String.eqb_eq in E4; split; eauto 6 | apply String.eqb_neq in E4].
  split; [tauto | intros [k Hk]; discriminate].
Qed.

Lemma items_key_inj s1 s2 k :
  items_key s1 = Some k -> items_key s2 = Some k -> s1 = s2.
Proof.
  unfold items_key. intros H1 H2.
  repeat match type of H1 with
  | context [String.eqb ?a ?b] =>
      let E := fresh "E" in destruct (String.eqb a b) eqn:E;
      [apply String.eqb_eq in E | clear E]
  end;
  repeat match type of H2 with
  | context [String.eqb ?a ?b] =>
      let E := fresh "E" in destruct (String.eqb a b) eqn:E;
      [apply String.eqb_eq in E | clear E]
  end; congruence.
Qed.

Section HandlerFacts.
Variable env : Env.

Lemma update_checklist_missing cid u w :
  lookup_checklist cid w = None ->
  update_checklist env cid u w = (Raise (mkHTTPException 404 "Checklist not found"), w).
Proof. unfold lookup_checklist, update_checklist. run_handler. by intros ->. Qed.

Lemma update_checklist_found cid u w c :
  lookup_checklist cid w = Some c ->
  let ud := mkUpdateDoc
              (dict_not_none u ++ [set_updated_at (utcnow_at env (clock_calls w))]) [] in
  update_checklist env cid u w =
    (if decide (apply_update ud c = c)
     then Raise (mkHTTPException 400 "Failed to update checklist")
     else Return (apply_update ud c),
     mkWorld (update_one cid ud (checklists w)).2 (S (clock_calls w)) (uuid_calls w)).
Proof.
  intros H ud. unfold lookup_checklist, update_checklist in *. run_handler. rewrite H.
  destruct (update_one_found cid ud _ _ H) as [Hn Hf]. fold ud.
  destruct (update_one cid ud (checklists w)) as [n coll]. simpl in *. subst n.
  destruct (decide (apply_update ud c = c)); simpl; [done|]. by rewrite Hf.
Qed.

Lemma add_checklist_item_found cid section text w c :
  section ∈ valid_sections ->
  lookup_checklist cid w = Some c ->
  let item := ChecklistItem.mk (uuid4_at env (uuid_calls w)) text false None in
  let ud := mkUpdateDoc [set_updated_at (utcnow_at env (clock_calls w))]
              [push_section section item] in
  add_checklist_item env cid section text w =
    (if decide (apply_update ud c = c)
     then Raise (mkHTTPException 400 "Failed to add item")
     else Return ("Item added successfully", item),
     mkWorld (update_one cid ud (checklists w)).2 (S (clock_calls w)) (S (uuid_calls w))).
Proof.
  intros Hs H item ud. unfold lookup_checklist, add_checklist_item, new_ChecklistItem in *.
  rewrite bool_decide_eq_false_2 by (intros Hn; by apply Hn).
  run_handler. rewrite H.
  destruct (update_one_found cid ud _ _ H) as [Hn Hf]. fold item. fold ud.
  destruct (update_one cid ud (checklists w)) as [n coll]. simpl in *. subst n.
  by destruct (decide (apply_update ud c = c)).
Qed.

Lemma add_photo_found cid p w c :
  lookup_checklist cid w = Some c ->
  let ud := mkUpdateDoc [set_updated_at (utcnow_at env (clock_calls w))] [push_photos p] in
  add_photo env cid p w =
    (if decide (apply_update ud c = c)
     then Raise (mkHTTPException 400 "Failed to add photo")
     else Return ("Photo added successfully", p),
     mkWorld (update_one cid ud (checklists w)).2 (S (clock_calls w)) (uuid_calls w)).
Proof.
  intros H ud. unfold lookup_checklist, add_photo in *. run_handler. rewrite H.
  destruct (update_one_found cid ud _ _ H) as [Hn Hf]. fold ud.
  destruct (update_one cid ud (checklists w)) as [n coll]. simpl in *. subst n.
  by destruct (decide (apply_update ud c = c)).
Qed.

(** The loop leaves the list alone when no item carries the id. *)
Lemma toggle_loop_missing item_id items w :
  find_item item_id items = None ->
  toggle_loop env item_id items w = (Return (items, false), w).
Proof.
  induction items as [|item rest IH]; simpl; [done|].
  destruct (String.eqb (ChecklistItem.id item) item_id); [discriminate|].
  intros H. run_handler. by rewrite (IH H).
Qed.

(** Otherwise it rewrites the first such item and nothing else. *)
Lemma toggle_loop_found item_id items w item :
  find_item item_id items = Some item ->
  let stamp := if ChecklistItem.completed item then None
               else Some (utcnow_at env (clock_calls w)) in
  let w' := if ChecklistItem.completed item then w
            else mkWorld (checklists w) (S (clock_calls w)) (uuid_calls w) in
  exists items',
    toggle_loop env item_id items w = (Return (items', true), w')
    /\ find_item item_id items'
       = Some (ChecklistItem.mk (ChecklistItem.id item) (ChecklistItem.text item)
                 (negb (ChecklistItem.completed item)) stamp)
    /\ ChecklistItem.completed <$> items' <> ChecklistItem.completed <$> items
    /\ (forallb item_consistent items = true -> forallb item_consistent items' = true).
Proof.
  induction items as [|x rest IH]; simpl; [discriminate|].
  destruct (String.eqb (ChecklistItem.id x) item_id) eqn:E.
  - intros [= ->].
    exists (ChecklistItem.mk (ChecklistItem.id item) (ChecklistItem.text item)
              (negb (ChecklistItem.completed item))
              (if ChecklistItem.completed item then None
               else Some (utcnow_at env (clock_calls w))) :: rest).
    split; [|split; [|split]].
    + run_handler. by destruct (ChecklistItem.completed item).
    + simpl. by rewrite E.
    + rewrite !fmap_cons. simpl. intros [= Hx]. by destruct (ChecklistItem.completed item).
    + simpl. rewrite !andb_true_iff. intros [_ Hrest]. split; [|done].
      unfold item_consistent. by destruct (ChecklistItem.completed item).
  - intros H. destruct (IH H) as (items' & Hrun & Hfind & Hne & Hcons).
    exists (x :: items'). split; [|split; [|split]].
    + run_handler. by rewrite Hrun.
    + simpl. by rewrite E.
    + rewrite !fmap_cons. intros [= Hx]. by apply Hne.
    + simpl. rewrite !andb_true_iff. intros [? ?]. auto.
Qed.

End HandlerFacts.

Section MoreHandlerFacts.
Variable env : Env.

Lemma toggle_checklist_item_no_checklist cid section item_id w :
  lookup_checklist cid w = None ->
  section ∈ valid_sections ->
  toggle_checklist_item env cid section item_id w
  = (Raise (mkHTTPException 404 "Checklist not found"), w).
Proof.
  intros H Hs. unfold lookup_checklist, toggle_checklist_item in *.
  rewrite bool_decide_eq_false_2 by (intros Hn; by apply Hn).
  run_handler. by rewrite H.
Qed.

Lemma toggle_checklist_item_no_item cid section item_id w c :
  lookup_checklist cid w = Some c ->
  section ∈ valid_sections ->
  find_item item_id (doc_get section c) = None ->
  toggle_checklist_item env cid section item_id w
  = (Raise (mkHTTPException 404 "Item not found"), w).
Proof.
  intros H Hs Hi. unfold lookup_checklist, toggle_checklist_item in *.
  rewrite bool_decide_eq_false_2 by (intros Hn; by apply Hn).
  run_handler. rewrite H.
  pose proof (toggle_loop_missing env item_id _ w Hi) as Hl.
  unfold mret, M_ret in Hl. by rewrite Hl.
Qed.

Lemma find_item_bson item_id items :
  find_item item_id (bson_item <$> items) = bson_item <$> find_item item_id items.
Proof.
  induction items as [|x l IH]; [done|].
  rewrite fmap_cons. cbn [find_item]. unfold bson_item at 1. cbn [ChecklistItem.id].
  by destruct (String.eqb (ChecklistItem.id x) item_id).
Qed.

Lemma completed_bson (items : list ChecklistItem.t) :
  ChecklistItem.completed <$> (bson_item <$> items) = ChecklistItem.completed <$> items.
Proof. rewrite <- list_fmap_compose. by apply list_fmap_ext. Qed.

Lemma with_items_changed k items c :
  items <> items_at k c ->
  forall t, with_updated_at t (with_items k items c) <> c.
Proof.
  intros Hne t Heq. apply Hne. rewrite <- Heq. clear Heq Hne.
  by destruct c, k.
Qed.

Lemma toggle_checklist_item_found cid section item_id w c item :
  lookup_checklist cid w = Some c ->
  section ∈ valid_sections ->
  find_item item_id (doc_get section c) = Some item ->
  let n := if ChecklistItem.completed item then clock_calls w else S (clock_calls w) in
  let stamp := if ChecklistItem.completed item then None
               else Some (utcnow_at env (clock_calls w)) in
  exists items',
    let ud := mkUpdateDoc [set_section section items'; set_updated_at (utcnow_at env n)] [] in
    toggle_checklist_item env cid section item_id w
    = (Return "Item toggled successfully",
       mkWorld (update_one cid ud (checklists w)).2 (S n) (uuid_calls w))
    /\ find_item item_id items'
       = Some (ChecklistItem.mk (ChecklistItem.id item) (ChecklistItem.text item)
                 (negb (ChecklistItem.completed item)) stamp)
    /\ (forallb item_consistent (doc_get section c) = true ->
        forallb item_consistent items' = true)
    /\ doc_get section (apply_update ud c) = bson_item <$> items'.
Proof.
  intros H Hs Hi n stamp.
  destruct (toggle_loop_found env item_id _ w item Hi) as (items' & Hrun & Hfind & Hne & Hcons).
  exists items'. intros ud. split; [|split; [done|split; [done|]]].
  - unfold lookup_checklist, toggle_checklist_item in *.
    rewrite bool_decide_eq_false_2 by (intros Hn; by apply Hn).
    run_handler. rewrite H.
    unfold mbind, M_bind, mret, M_ret, utcnow in Hrun. rewrite Hrun. simpl.
    assert (Hn : apply_update ud c <> c).
    { apply valid_sections_items_key in Hs as [k Hk].
      unfold apply_update, ud; simpl. rewrite Hk.
      apply with_items_changed. unfold doc_get in Hne. rewrite Hk in Hne.
      intros Heq. apply Hne. by rewrite <- Heq, completed_bson. }
    assert (Hw : clock_calls (if ChecklistItem.completed item then w
                 else mkWorld (checklists w) (S (clock_calls w)) (uuid_calls w)) = n
                 /\ checklists (if ChecklistItem.completed item then w
                 else mkWorld (checklists w) (S (clock_calls w)) (uuid_calls w)) = checklists w
                 /\ uuid_calls (if ChecklistItem.completed item then w
                 else mkWorld (checklists w) (S (clock_calls w)) (uuid_calls w)) = uuid_calls w)
      by (subst n; by destruct (ChecklistItem.completed item)).
    destruct Hw as (-> & -> & ->). fold ud.
    destruct (update_one_found cid ud _ _ H) as [Hm _].
    destruct (update_one cid ud (checklists w)) as [m coll]. simpl in *. subst m.
    by destruct (decide (apply_update ud c = c)).
  - apply valid_sections_items_key in Hs as [k Hk].
    unfold apply_update, ud, doc_get; simpl. rewrite Hk. by destruct c, k.
Qed.

(** The stored document after [$set] with the non-null fields of an
    update payload. *)
Lemma apply_dict_not_none u c :
  fold_left (fun d f => apply_set f d) (dict_not_none u) c =
  VehicleChecklist.mk
    (VehicleChecklist.id c)
    (default (VehicleChecklist.title c) (VehicleChecklistUpdate.title u))
    (default (VehicleChecklist.vehicle_info c) (VehicleChecklistUpdate.vehicle_info u))
    (default (VehicleChecklist.engine_info c) (VehicleChecklistUpdate.engine_info u))
    (default (VehicleChecklist.tasks c)
       (fmap (M:=list) bson_item <$> VehicleChecklistUpdate.tasks u))
    (default (VehicleChecklist.parts_to_install c)
       (fmap (M:=list) bson_item <$> VehicleChecklistUpdate.parts_to_install u))
    (default (VehicleChecklist.maintenance c)
       (fmap (M:=list) bson_item <$> VehicleChecklistUpdate.maintenance u))
    (default (VehicleChecklist.research_items c)
       (fmap (M:=list) bson_item <$> VehicleChecklistUpdate.research_items u))
    (default (VehicleChecklist.photos c)
       (fmap (M:=list) bson_photo <$> VehicleChecklistUpdate.photos u))
    (VehicleChecklist.created_at c)
    (VehicleChecklist.updated_at c)
    (VehicleChecklist.is_template c).
Proof.
  destruct c, u as [[?|] [?|] [?|] [?|] [?|] [?|] [?|] [?|]]; reflexivity.
Qed.

Lemma apply_update_dict u now c :
  apply_update (mkUpdateDoc (dict_not_none u ++ [set_updated_at now]) []) c =
  VehicleChecklist.mk
    (VehicleChecklist.id c)
    (default (VehicleChecklist.title c) (VehicleChecklistUpdate.title u))
    (default (VehicleChecklist.vehicle_info c) (VehicleChecklistUpdate.vehicle_info u))
    (default (VehicleChecklist.engine_info c) (VehicleChecklistUpdate.engine_info u))
    (default (VehicleChecklist.tasks c)
       (fmap (M:=list) bson_item <$> VehicleChecklistUpdate.tasks u))
    (default (VehicleChecklist.parts_to_install c)
       (fmap (M:=list) bson_item <$> VehicleChecklistUpdate.parts_to_install u))
    (default (VehicleChecklist.maintenance c)
       (fmap (M:=list) bson_item <$> VehicleChecklistUpdate.maintenance u))
    (default (VehicleChecklist.research_items c)
       (fmap (M:=list) bson_item <$> VehicleChecklistUpdate.research_items u))
    (default (VehicleChecklist.photos c)
       (fmap (M:=list) bson_photo <$> VehicleChecklistUpdate.photos u))
    (VehicleChecklist.created_at c)
    (bson_date now)
    (VehicleChecklist.is_template c).
Proof.
  unfold apply_update. simpl. rewrite fold_left_app, apply_dict_not_none. reflexivity.
Qed.

End MoreHandlerFacts.

Section Effects.
Variable env : Env.

Lemma create_checklist_ok d w is_template :
  VehicleChecklistCreate.is_template d = Some is_template ->
  let c := VehicleChecklist.mk (uuid4_at env (uuid_calls w))
             (VehicleChecklistCreate.title d)
             (VehicleChecklistCreate.vehicle_info d)
             (VehicleChecklistCreate.engine_info d)
             [] [] [] [] []
             (utcnow_at env (clock_calls w)) (utcnow_at env (S (clock_calls w)))
             is_template in
  create_checklist env d w
  = (Return c,
     mkWorld (checklists w ++ [bson_checklist c]) (S (S (clock_calls w))) (S (uuid_calls w))).
Proof.
  intros H c. unfold create_checklist, new_VehicleChecklist. run_handler.
  by rewrite H.
Qed.

Lemma create_checklist_null d w :
  VehicleChecklistCreate.is_template d = None ->
  create_checklist env d w
  = (Raise internal_server_error,
     mkWorld (checklists w) (S (S (clock_calls w))) (S (uuid_calls w))).
Proof.
  intros H. unfold create_checklist, new_VehicleChecklist. run_handler.
  by rewrite H.
Qed.

Lemma respond_world {A} (f : A -> Response) (m : M A) w :
  (respond f m w).2 = (m w).2.
Proof.
  unfold respond, mbind, M_bind, mret, M_ret.
  by destruct (m w) as [[a|e] w'].
Qed.

Lemma respond_outcome {A} (f : A -> Response) (m : M A) w a w' :
  m w = (Return a, w') -> respond f m w = (Return (f a), w').
Proof.
  unfold respond, mbind, M_bind, mret, M_ret. by intros ->.
Qed.

Lemma add_item_consistent section item c now :
  item_consistent item = true ->
  checklist_consistent c = true ->
  checklist_consistent
    (apply_update (mkUpdateDoc [set_updated_at now] [push_section section item]) c) = true.
Proof.
  intros Hi Hc. rewrite <- item_consistent_bson in Hi. unfold apply_update; simpl.
  destruct (items_key section) as [k|]; [|by destruct c].
  destruct c, k; unfold checklist_consistent in *; cbn in *;
    rewrite !andb_true_iff in *; rewrite ?forallb_app; cbn [forallb];
    rewrite ?andb_true_iff; tauto.
Qed.

Lemma toggle_consistent section items c now :
  forallb item_consistent items = true ->
  checklist_consistent c = true ->
  checklist_consistent
    (apply_update (mkUpdateDoc [set_section section items; set_updated_at now] []) c) = true.
Proof.
  intros Hi Hc. rewrite <- items_consistent_bson in Hi. unfold apply_update; simpl.
  destruct (items_key section) as [k|]; [|by destruct c].
  destruct c, k; unfold checklist_consistent in *; cbn in *;
    rewrite !andb_true_iff in *; tauto.
Qed.

Lemma default_consistent old (l : option (list ChecklistItem.t)) :
  forallb item_consistent old = true ->
  items_opt_consistent l = true ->
  forallb item_consistent (default old (fmap (M:=list) bson_item <$> l)) = true.
Proof.
  intros Ho Hl. destruct l as [items|]; [|done].
  change (forallb item_consistent (bson_item <$> items) = true).
  by rewrite items_consistent_bson.
Qed.

Lemma update_consistent u c now :
  payload_consistent u = true ->
  checklist_consistent c = true ->
  checklist_consistent
    (apply_update (mkUpdateDoc (dict_not_none u ++ [set_updated_at now]) []) c) = true.
Proof.
  intros Hu Hc. rewrite apply_update_dict.
  unfold checklist_consistent, payload_consistent in *.
  cbn [VehicleChecklist.tasks VehicleChecklist.parts_to_install
       VehicleChecklist.maintenance VehicleChecklist.research_items].
  rewrite !andb_true_iff in *.
  destruct Hu as [[[? ?] ?] ?], Hc as [[[? ?] ?] ?].
  repeat split; by apply default_consistent.
Qed.

Lemma doc_get_consistent section c :
  checklist_consistent c = true -> forallb item_consistent (doc_get section c) = true.
Proof.
  unfold checklist_consistent, doc_get. rewrite !andb_true_iff.
  destruct (items_key section) as [[]|]; simpl; tauto.
Qed.

Lemma store_consistent_elem w c :
  store_consistent w = true -> c ∈ checklists w -> checklist_consistent c = true.
Proof.
  unfold store_consistent. rewrite forallb_forall.
  intros H Hin. apply H. by apply list_elem_of_In.
Qed.

Lemma delete_checklist_world cid w :
  (delete_checklist cid w).2
  = mkWorld (delete_one cid (checklists w)).2 (clock_calls w) (uuid_calls w).
Proof.
  unfold delete_checklist. run_handler.
  destruct (delete_one cid (checklists w)) as [n coll]. simpl.
  by destruct (n =? 0)%nat.
Qed.

(** What one request does to the collection and to the two counters. *)
Lemma serve_cases r w :
  (clock_calls w <= clock_calls (serve env r w))%nat
  /\ (uuid_calls w <= uuid_calls (serve env r w))%nat
  /\ (checklists (serve env r w) = checklists w
      \/ (exists c,
            checklists (serve env r w) = (checklists w ++ [c])%list
            /\ VehicleChecklist.id c = uuid4_at env (uuid_calls w)
            /\ (uuid_calls w < uuid_calls (serve env r w))%nat
            /\ VehicleChecklist.updated_at c = bson_date (utcnow_at env (S (clock_calls w)))
            /\ (S (clock_calls w) < clock_calls (serve env r w))%nat
            /\ checklist_consistent c = true)
      \/ (exists cid,
            checklists (serve env r w) = (delete_one cid (checklists w)).2)
      \/ (exists cid ud c k,
            lookup_checklist cid w = Some c
            /\ checklists (serve env r w) = (update_one cid ud (checklists w)).2
            /\ VehicleChecklist.updated_at (apply_update ud c) = bson_date (utcnow_at env k)
            /\ (clock_calls w <= k < clock_calls (serve env r w))%nat
            /\ (checklist_consistent c = true -> request_consistent r = true ->
                checklist_consistent (apply_update ud c) = true))).
Proof.
  unfold serve. destruct r as [d|q|cid|cid u|cid|cid section text|cid section item_id|cid p];
    cbn [dispatch]; rewrite respond_world.
  - (* create *)
    destruct (VehicleChecklistCreate.is_template d) as [b|] eqn:E.
    + rewrite (create_checklist_ok d w b E). simpl.
      split; [lia|]. split; [lia|]. right; left. eexists. split; [reflexivity|].
      repeat split; try reflexivity; simpl; lia.
    + rewrite (create_checklist_null d w E). simpl.
      split; [lia|]. split; [lia|]. by left.
  - (* list *) simpl. auto.
  - (* get *)
    unfold get_checklist. run_handler.
    destruct (find_one cid (checklists w)); simpl; auto.
  - (* update *)
    destruct (lookup_checklist cid w) as [c|] eqn:E.
    + rewrite (update_checklist_found env cid u w c E). simpl.
      split; [lia|]. split; [lia|]. right; right; right.
      eexists cid, _, c, (clock_calls w). split; [done|]. split; [reflexivity|].
      split; [by rewrite apply_update_dict|]. split; [lia|].
      intros Hc Hu. by apply update_consistent.
    + rewrite (update_checklist_missing env cid u w E). simpl. auto.
  - (* delete *)
    rewrite delete_checklist_world. simpl.
    split; [lia|]. split; [lia|]. right; right; left. by exists cid.
  - (* add item *)
    destruct (decide (section ∈ valid_sections)) as [Hs|Hs].
    + destruct (lookup_checklist cid w) as [c|] eqn:E.
      * rewrite (add_checklist_item_found env cid section text w c Hs E).
        simpl. split; [lia|]. split; [lia|]. right; right; right.
        eexists cid, _, c, (clock_calls w). split; [done|]. split; [reflexivity|].
        split.
        { unfold apply_update; simpl. destruct (items_key section) as [[]|]; by destruct c. }
        split; [lia|]. intros Hc _. by apply add_item_consistent.
      * unfold lookup_checklist, add_checklist_item in *.
        rewrite bool_decide_eq_false_2 by (intros Hn; by apply Hn).
        run_handler. rewrite E. simpl. auto.
    + unfold add_checklist_item. rewrite bool_decide_eq_true_2 by done.
      simpl. auto.
  - (* toggle *)
    destruct (decide (section ∈ valid_sections)) as [Hs|Hs].
    + destruct (lookup_checklist cid w) as [c|] eqn:E.
      * destruct (find_item item_id (doc_get section c)) as [item|] eqn:Ei.
        -- destruct (toggle_checklist_item_found env cid section item_id w c item E Hs Ei)
             as (items' & Hrun & _ & Hcons & _).
           rewrite Hrun. simpl.
           split; [destruct (ChecklistItem.completed item); lia|]. split; [lia|].
           right; right; right.
           eexists cid, _, c, _. split; [done|]. split; [reflexivity|].
           split.
           { unfold apply_update; simpl. destruct (items_key section) as [[]|]; by destruct c. }
           split; [destruct (ChecklistItem.completed item); lia|].
           intros Hc _. apply toggle_consistent; [|done].
           apply Hcons. by apply doc_get_consistent.
        -- rewrite (toggle_checklist_item_no_item env cid section item_id w c E Hs Ei).
           simpl. auto.
      * rewrite (toggle_checklist_item_no_checklist env cid section item_id w E Hs).
        simpl. auto.
    + unfold toggle_checklist_item. rewrite bool_decide_eq_true_2 by done.
      simpl. auto.
  - (* add photo *)
    destruct (lookup_checklist cid w) as [c|] eqn:E.
    + rewrite (add_photo_found env cid p w c E). simpl.
      split; [lia|]. split; [lia|]. right; right; right.
      eexists cid, _, c, (clock_calls w). split; [done|]. split; [reflexivity|].
      split; [by destruct c|]. split; [lia|].
      intros Hc _. by destruct c.
    + unfold lookup_checklist, add_photo in *. run_handler. rewrite E. simpl. auto.
Qed.

End Effects.

(** * Invariants of the collection *)

Section Invariants.
Variable env : Env.

Lemma item_consistent_iff item :
  item_consistent item = true
  <-> (ChecklistItem.completed_at item <> None <-> ChecklistItem.completed item = true).
Proof.
  unfold item_consistent.
  destruct (ChecklistItem.completed_at item), (ChecklistItem.completed item); simpl;
    split; try done; try (intros _; split; congruence).
  - intros [H _]. by apply H.
  - intros [_ H]. by destruct H.
Qed.

Lemma serve_consistent r w :
  store_consistent w = true ->
  request_consistent r = true ->
  store_consistent (serve env r w) = true.
Proof.
  intros Hw Hr.
  destruct (serve_cases env r w) as (_ & _ & [E | [(c & E & _ & _ & _ & _ & Hc)
    | [(cid & E) | (cid & ud & c & k & Hl & E & _ & _ & Hc)]]]);
    unfold store_consistent; rewrite E.
  - exact Hw.
  - rewrite forallb_app. simpl. unfold store_consistent in Hw. by rewrite Hw, Hc.
  - apply forallb_forall. intros x Hx%list_elem_of_In%delete_one_elem.
    by apply (store_consistent_elem w).
  - apply forallb_forall. intros x Hx%list_elem_of_In%update_one_elem.
    destruct Hx as [Hx | (c1 & Hf & ->)].
    + by apply (store_consistent_elem w).
    + unfold lookup_checklist in Hl. rewrite Hl in Hf. injection Hf as <-.
      apply Hc; [|done]. apply (store_consistent_elem w); [done|].
      by apply (find_one_elem cid).
Qed.


Hypothesis clock_ok : clock_monotone env.
Hypothesis uuid_ok : uuid_injective env.

Lemma serve_world_ok r w :
  world_ok env w -> world_ok env (serve env r w).
Proof.
  intros [Hnd Hids Hst].
  destruct (serve_cases env r w) as (Hck & Huu & [E | [(c & E & Hid & Hu & Hup & Hk & _)
    | [(cid & E) | (cid & ud & c & k & Hl & E & Hup & Hk & _)]]]).
  - split; rewrite E.
    + done.
    + intros n c Hn Hc. apply Hids; [lia|done].
    + intros c Hc. etrans; [by apply Hst|]. by apply bson_date_mono, clock_ok.
  - split; rewrite E.
    + rewrite fmap_app. simpl. apply NoDup_app. split; [done|]. split; [|apply NoDup_singleton].
      intros x (d & -> & Hd)%list_elem_of_fmap [Heq|[]%elem_of_nil]%elem_of_cons.
      apply (Hids (uuid_calls w) d); [lia|done|congruence].
    + intros n d Hn [Hd|[->|[]%elem_of_nil]%elem_of_cons]%elem_of_app.
      * apply Hids; [lia|done].
      * rewrite Hid. intros Heq%uuid_ok. lia.
    + intros d [Hd|[->|[]%elem_of_nil]%elem_of_cons]%elem_of_app.
      * etrans; [by apply Hst|]. by apply bson_date_mono, clock_ok.
      * rewrite Hup. apply bson_date_mono, clock_ok. lia.
  - split; rewrite E.
    + by apply delete_one_nodup.
    + intros n d Hn Hd%delete_one_elem. apply Hids; [lia|done].
    + intros d Hd%delete_one_elem. etrans; [by apply Hst|]. by apply bson_date_mono, clock_ok.
  - unfold lookup_checklist in Hl. split; rewrite E.
    + by rewrite update_one_ids.
    + intros n d Hn [Hd | (c1 & Hf & ->)]%update_one_elem.
      * apply Hids; [lia|done].
      * rewrite apply_update_id. apply Hids; [lia|]. by apply (find_one_elem cid).
    + intros d [Hd | (c1 & Hf & ->)]%update_one_elem.
      * etrans; [by apply Hst|]. by apply bson_date_mono, clock_ok.
      * rewrite Hl in Hf. injection Hf as <-. rewrite Hup. apply bson_date_mono, clock_ok. lia.
Qed.

Lemma serve_all_world_ok rs w :
  world_ok env w -> world_ok env (serve_all env rs w).
Proof.
  revert w. induction rs as [|r rs IH]; intros w Hw; simpl; [done|].
  apply IH. by apply serve_world_ok.
Qed.

Lemma serve_retired r w cid :
  retired env w cid -> retired env (serve env r w) cid.
Proof.
  unfold retired, lookup_checklist. intros [Hl Hn].
  destruct (serve_cases env r w) as (_ & Huu & Hcases).
  split; [|intros n Hle; apply Hn; lia].
  destruct Hcases as [E | [(c & E & Hid & _) | [(cid0 & E) | (cid0 & ud & _ & _ & _ & E & _)]]];
    rewrite E.
  - done.
  - rewrite find_one_app, Hl.
    destruct (String.eqb (VehicleChecklist.id c) cid) eqn:Eq; [|done].
    apply String.eqb_eq in Eq. destruct (Hn (uuid_calls w)); [lia|congruence].
  - apply find_one_None. apply find_one_None in Hl.
    intros (x & -> & Hx%delete_one_elem)%list_elem_of_fmap.
    apply Hl. apply list_elem_of_fmap. eauto.
  - apply find_one_None. rewrite update_one_ids. by apply find_one_None.
Qed.

Lemma serve_all_retired rs w cid :
  retired env w cid -> lookup_checklist cid (serve_all env rs w) = None.
Proof.
  revert w. induction rs as [|r rs IH]; intros w Hw; simpl; [apply Hw|].
  apply IH. by apply serve_retired.
Qed.



End Invariants.

(** * The claims *)

(** C1, counterexample.  On a consistent store, an update whose payload
    replaces [tasks] by a list holding an open item with a completion
    time succeeds, and the stored checklist then has an item whose
    [completed_at] is non-null although [completed] is false. *)
Lemma C1_update_stores_inconsistent_item :
  store_consistent Sample.w1 = true
  /\ (exists c, (dispatch Sample.env (PUT_checklist "0" Sample.replace_tasks) Sample.w1).1
                = Return (one_checklist c))
  /\ VehicleChecklist.tasks
       <$> lookup_checklist "0" (serve Sample.env (PUT_checklist "0" Sample.replace_tasks) Sample.w1)
     = Some [Sample.stale_task]
  /\ ChecklistItem.completed Sample.stale_task = false
  /\ ChecklistItem.completed_at Sample.stale_task = Some 7000.
Proof.
  split; [reflexivity|]. split; [|split; [vm_compute; reflexivity|split; reflexivity]].
  eexists. vm_compute. reflexivity.
Qed.

(** C1, amended.  Every request maps a store in which [completed_at] is
    non-null iff [completed] is true, for every item of the four lists of
    every checklist, to a store with the same property, provided that the
    items carried by an update payload have it too. *)
Theorem C1_completed_at_iff_completed env r w :
  store_consistent w = true ->
  request_consistent r = true ->
  forall c section item,
    c ∈ checklists (serve env r w) ->
    item ∈ doc_get section c ->
    (ChecklistItem.completed_at item <> None <-> ChecklistItem.completed item = true).
Proof.
  intros Hw Hr c section item Hc Hi.
  apply item_consistent_iff.
  pose proof (serve_consistent env r w Hw Hr) as Hw'.
  pose proof (doc_get_consistent section c (store_consistent_elem _ c Hw' Hc)) as Hl.
  rewrite forallb_forall in Hl. apply Hl. by apply list_elem_of_In.
Qed.

(** Toggling the open task of the sample checklist keeps the store consistent. *)
Lemma C1_completed_at_iff_completed_witness :
  store_consistent Sample.w2 = true
  /\ request_consistent (PUT_toggle "0" "tasks" "1") = true
  /\ forall c section item,
       c ∈ checklists (serve Sample.env (PUT_toggle "0" "tasks" "1") Sample.w2) ->
       item ∈ doc_get section c ->
       (ChecklistItem.completed_at item <> None <-> ChecklistItem.completed item = true).
Proof.
  split; [reflexivity|]. split; [reflexivity|].
  apply (C1_completed_at_iff_completed Sample.env (PUT_toggle "0" "tasks" "1") Sample.w2);
    reflexivity.
Defined.

(** C2, counterexample.  A completed item whose [completed_at] is 103 ms
    is toggled twice, the clock reading 105 ms to 107 ms: the flag returns
    to true but [completed_at] is 106 ms, the time of the second toggle,
    not 103 ms. *)
Lemma C2_completed_at_not_restored :
  ~ toggle_twice_restores Sample.env Sample.w3 "0" "tasks" "1".
Proof.
  intros H.
  edestruct H as (c2 & item2 & Hl & Hi & _ & Hat);
    [vm_compute; reflexivity | vm_compute; reflexivity |].
  vm_compute in Hl. injection Hl as <-.
  vm_compute in Hi. injection Hi as <-.
  vm_compute in Hat. discriminate Hat.
Qed.

(** C2, amended.  For an existing checklist, a section of the closed set
    and an item id present in that section, two toggles in a row both
    succeed and give the item back its [completed] flag (its id and text
    are kept); its [completed_at] is null again if the item was not
    completed, and is the instant of the second toggle, as the store
    keeps it, if it was.  So an open item with a null [completed_at] is
    restored exactly. *)
Theorem C2_double_toggle env w cid section item_id c item :
  lookup_checklist cid w = Some c ->
  section ∈ valid_sections ->
  find_item item_id (doc_get section c) = Some item ->
  exists w1 w2 c2 item2,
    toggle_checklist_item env cid section item_id w
      = (Return "Item toggled successfully", w1)
    /\ toggle_checklist_item env cid section item_id w1
      = (Return "Item toggled successfully", w2)
    /\ lookup_checklist cid w2 = Some c2
    /\ find_item item_id (doc_get section c2) = Some item2
    /\ ChecklistItem.id item2 = ChecklistItem.id item
    /\ ChecklistItem.text item2 = ChecklistItem.text item
    /\ ChecklistItem.completed item2 = ChecklistItem.completed item
    /\ ChecklistItem.completed_at item2
       = (if ChecklistItem.completed item
          then Some (bson_date (utcnow_at env (S (clock_calls w)))) else None)
    /\ (ChecklistItem.completed item = false ->
        ChecklistItem.completed_at item = None -> item2 = item).
Proof.
  intros Hl Hs Hi.
  destruct (toggle_checklist_item_found env cid section item_id w c item Hl Hs Hi)
    as (items1 & Hrun1 & Hf1 & _ & Hg1).
  cbv zeta in Hrun1, Hg1.
  match type of Hrun1 with _ = (_, ?x) => set (w1 := x) in * end.
  match type of Hg1 with doc_get _ ?x = _ => set (c1 := x) in * end.
  assert (Hl1 : lookup_checklist cid w1 = Some c1)
    by (unfold lookup_checklist, w1; simpl; by apply update_one_found).
  apply (f_equal (fmap bson_item)) in Hf1. rewrite <- find_item_bson, <- Hg1 in Hf1.
  destruct (toggle_checklist_item_found env cid section item_id w1 c1 _ Hl1 Hs Hf1)
    as (items2 & Hrun2 & Hf2 & _ & Hg2).
  cbv zeta in Hrun2, Hg2.
  match type of Hrun2 with _ = (_, ?x) => set (w2 := x) in * end.
  match type of Hg2 with doc_get _ ?x = _ => set (c2 := x) in * end.
  assert (Hl2 : lookup_checklist cid w2 = Some c2)
    by (unfold lookup_checklist, w2; simpl; by apply update_one_found).
  apply (f_equal (fmap bson_item)) in Hf2. rewrite <- find_item_bson, <- Hg2 in Hf2.
  eexists w1, w2, c2, _. split; [exact Hrun1|]. split; [exact Hrun2|].
  split; [exact Hl2|]. split; [exact Hf2|]. simpl.
  split; [done|]. split; [done|]. split; [by destruct (ChecklistItem.completed item)|].
  split.
  - subst w1. by destruct (ChecklistItem.completed item).
  - intros Hc Hat. destruct item as [i t b s]. simpl in *. by rewrite Hc, Hat.
Qed.

(** The open task of the sample checklist, toggled twice. *)
Lemma C2_double_toggle_witness :
  lookup_checklist "0" Sample.w2 = Some Sample.checklist2
  /\ "tasks" ∈ valid_sections
  /\ find_item "1" (doc_get "tasks" Sample.checklist2) = Some Sample.task
  /\ exists w1 w2 c2 item2,
      toggle_checklist_item Sample.env "0" "tasks" "1" Sample.w2
        = (Return "Item toggled successfully", w1)
      /\ toggle_checklist_item Sample.env "0" "tasks" "1" w1
        = (Return "Item toggled successfully", w2)
      /\ lookup_checklist "0" w2 = Some c2
      /\ find_item "1" (doc_get "tasks" c2) = Some item2
      /\ ChecklistItem.id item2 = ChecklistItem.id Sample.task
      /\ ChecklistItem.text item2 = ChecklistItem.text Sample.task
      /\ ChecklistItem.completed item2 = ChecklistItem.completed Sample.task
      /\ ChecklistItem.completed_at item2
         = (if ChecklistItem.completed Sample.task
            then Some (bson_date (utcnow_at Sample.env (S (clock_calls Sample.w2))))
            else None)
      /\ (ChecklistItem.completed Sample.task = false ->
          ChecklistItem.completed_at Sample.task = None -> item2 = Sample.task).
Proof.
  split; [vm_compute; reflexivity|]. split; [by left|]. split; [reflexivity|].
  apply (C2_double_toggle Sample.env Sample.w2 "0" "tasks" "1" Sample.checklist2 Sample.task);
    [vm_compute; reflexivity | by left | reflexivity].
Defined.

(** C3.  For an existing checklist, after [update_checklist] each of the
    eight updatable fields of the stored document is the payload's value
    when the payload carries one (whole record or whole list, with the
    datetimes of items and photos as the store keeps them), and the
    previously stored value when the payload's field is null (omitted
    fields are null in the parsed payload); a returned document is that
    stored document. *)
Theorem C3_update_replaces_fields env cid u w c :
  lookup_checklist cid w = Some c ->
  exists c',
    lookup_checklist cid (update_checklist env cid u w).2 = Some c'
    /\ VehicleChecklist.title c'
       = default (VehicleChecklist.title c) (VehicleChecklistUpdate.title u)
    /\ VehicleChecklist.vehicle_info c'
       = default (VehicleChecklist.vehicle_info c) (VehicleChecklistUpdate.vehicle_info u)
    /\ VehicleChecklist.engine_info c'
       = default (VehicleChecklist.engine_info c) (VehicleChecklistUpdate.engine_info u)
    /\ VehicleChecklist.tasks c'
       = default (VehicleChecklist.tasks c)
           (fmap (M:=list) bson_item <$> VehicleChecklistUpdate.tasks u)
    /\ VehicleChecklist.parts_to_install c'
       = default (VehicleChecklist.parts_to_install c)
           (fmap (M:=list) bson_item <$> VehicleChecklistUpdate.parts_to_install u)
    /\ VehicleChecklist.maintenance c'
       = default (VehicleChecklist.maintenance c)
           (fmap (M:=list) bson_item <$> VehicleChecklistUpdate.maintenance u)
    /\ VehicleChecklist.research_items c'
       = default (VehicleChecklist.research_items c)
           (fmap (M:=list) bson_item <$> VehicleChecklistUpdate.research_items u)
    /\ VehicleChecklist.photos c'
       = default (VehicleChecklist.photos c)
           (fmap (M:=list) bson_photo <$> VehicleChecklistUpdate.photos u)
    /\ forall r, (update_checklist env cid u w).1 = Return r -> r = c'.
Proof.
  intros Hl. rewrite (update_checklist_found env cid u w c Hl). cbv zeta.
  set (ud := mkUpdateDoc _ _).
  exists (apply_update ud c). split.
  - unfold lookup_checklist. simpl. by apply update_one_found.
  - unfold ud at 1 2 3 4 5 6 7 8. rewrite apply_update_dict. simpl.
    repeat (split; [reflexivity|]).
    intros r. destruct (decide (apply_update ud c = c)); [discriminate|].
    by intros [= <-].
Qed.

(** Replacing the task list of the sample checklist keeps its title and photos. *)
Lemma C3_update_replaces_fields_witness :
  lookup_checklist "0" Sample.w2 = Some Sample.checklist2
  /\ exists c',
    lookup_checklist "0" (update_checklist Sample.env "0" Sample.replace_tasks Sample.w2).2
      = Some c'
    /\ VehicleChecklist.title c' = "1970 Mustang"
    /\ VehicleChecklist.tasks c' = [Sample.stale_task]
    /\ VehicleChecklist.photos c' = [].
Proof.
  split; [vm_compute; reflexivity|].
  destruct (C3_update_replaces_fields Sample.env "0" Sample.replace_tasks Sample.w2
              Sample.checklist2) as (c' & Hl & Hti & _ & _ & Hta & _ & _ & _ & Hph & _);
    [vm_compute; reflexivity|].
  exists c'. split; [exact Hl|]. split; [exact Hti|]. split; [exact Hta|exact Hph].
Defined.

Lemma add_item_effect section k item now c :
  items_key section = Some k ->
  apply_update (mkUpdateDoc [set_updated_at now] [push_section section item]) c
  = with_items k (items_at k c ++ [bson_item item])%list (with_updated_at (bson_date now) c).
Proof.
  intros Hk. unfold apply_update. simpl. rewrite Hk. by destruct c, k.
Qed.

Lemma items_at_with_items k k' items c :
  items_at k' (with_items k items c) = if decide (k' = k) then items else items_at k' c.
Proof. by destruct c, k, k'. Qed.



(** C6.  [update_checklist] raises a 404 exactly when no checklist has
    the id, and then writes nothing.  For an existing id the write is
    made in every case: the collection becomes the one [update_one]
    leaves, in which the id is found with the post-update document (the
    non-null payload fields in place, [updated_at] renewed).  The handler
    raises a 400 exactly when [update_one] reports zero documents
    modified, which is exactly when the post-update document equals the
    stored one; otherwise it returns the post-update document, as read
    back from the store. *)
Theorem C6_update_outcomes env cid u w :
  ((exists e, (update_checklist env cid u w).1 = Raise e /\ status_code e = 404)
   <-> lookup_checklist cid w = None)
  /\ (lookup_checklist cid w = None -> (update_checklist env cid u w).2 = w)
  /\ forall c,
       lookup_checklist cid w = Some c ->
       let ud := mkUpdateDoc
                   (dict_not_none u ++ [set_updated_at (utcnow_at env (clock_calls w))]) [] in
       let modified_count := (update_one cid ud (checklists w)).1 in
       let stored := (update_one cid ud (checklists w)).2 in
       let c' :=
         VehicleChecklist.mk
           (VehicleChecklist.id c)
           (default (VehicleChecklist.title c) (VehicleChecklistUpdate.title u))
           (default (VehicleChecklist.vehicle_info c) (VehicleChecklistUpdate.vehicle_info u))
           (default (VehicleChecklist.engine_info c) (VehicleChecklistUpdate.engine_info u))
           (default (VehicleChecklist.tasks c)
              (fmap (M:=list) bson_item <$> VehicleChecklistUpdate.tasks u))
           (default (VehicleChecklist.parts_to_install c)
              (fmap (M:=list) bson_item <$> VehicleChecklistUpdate.parts_to_install u))
           (default (VehicleChecklist.maintenance c)
              (fmap (M:=list) bson_item <$> VehicleChecklistUpdate.maintenance u))
           (default (VehicleChecklist.research_items c)
              (fmap (M:=list) bson_item <$> VehicleChecklistUpdate.research_items u))
           (default (VehicleChecklist.photos c)
              (fmap (M:=list) bson_photo <$> VehicleChecklistUpdate.photos u))
           (VehicleChecklist.created_at c)
           (bson_date (utcnow_at env (clock_calls w)))
           (VehicleChecklist.is_template c) in
       (update_checklist env cid u w).2 = mkWorld stored (S (clock_calls w)) (uuid_calls w)
       /\ find_one cid stored = Some c'
       /\ ((exists e, (update_checklist env cid u w).1 = Raise e /\ status_code e = 400)
           <-> modified_count = 0%nat)
       /\ (modified_count = 0%nat <-> c' = c)
       /\ (modified_count <> 0%nat -> (update_checklist env cid u w).1 = Return c').
Proof.
  split; [|split].
  - destruct (lookup_checklist cid w) as [c|] eqn:Hl.
    + rewrite (update_checklist_found env cid u w c Hl). cbv zeta. simpl.
      split; [|discriminate]. intros (e & He & Hs).
      destruct (decide _); [|discriminate]. injection He as <-. discriminate Hs.
    + rewrite (update_checklist_missing env cid u w Hl). simpl.
      split; [done|]. intros _. by eexists.
  - intros Hl. by rewrite (update_checklist_missing env cid u w Hl).
  - intros c Hl ud modified_count stored c'.
    rewrite (update_checklist_found env cid u w c Hl). cbv zeta. fold ud. simpl.
    destruct (update_one_found cid ud _ _ Hl) as [Hn Hf].
    assert (Hc' : apply_update ud c = c') by apply apply_update_dict.
    rewrite Hc' in *. split; [done|]. split; [exact Hf|].
    unfold modified_count. rewrite Hn.
    destruct (decide (c' = c)) as [Heq|Hne].
    + split; [split; [done|]; intros _; by eexists|]. by split.
    + split; [split; [by intros (e & He & _)|done]|]. by split.
Qed.

(** Retitling the sample checklist modifies one document and returns it. *)
Lemma C6_update_outcomes_witness :
  lookup_checklist "0" Sample.w2 = Some Sample.checklist2
  /\ exists c',
       (update_checklist Sample.env "0" Sample.retitle Sample.w2).1 = Return c'
       /\ VehicleChecklist.title c' = "1970 Mustang Mach 1"
       /\ lookup_checklist "0" (update_checklist Sample.env "0" Sample.retitle Sample.w2).2
          = Some c'.
Proof.
  split; [vm_compute; reflexivity|].
  destruct (C6_update_outcomes Sample.env "0" Sample.retitle Sample.w2) as (_ & _ & H).
  destruct (H Sample.checklist2) as (Hw & Hf & _ & _ & Hok); [vm_compute; reflexivity|].
  cbv zeta in *. eexists. split; [apply Hok; vm_compute; discriminate|].
  split; [reflexivity|]. unfold lookup_checklist. rewrite Hw. exact Hf.
Defined.

Lemma invalid_section_raises env cid section item_text item_id w :
  (section ∉ valid_sections) ->
  add_checklist_item env cid section item_text w = (Raise invalid_section, w)
  /\ toggle_checklist_item env cid section item_id w = (Raise invalid_section, w).
Proof.
  intros Hs. unfold add_checklist_item, toggle_checklist_item.
  by rewrite (bool_decide_eq_true_2 _ Hs).
Qed.

(** C7.  With a section string outside the four item-list names,
    [add_checklist_item] and [toggle_checklist_item] raise the 400
    "invalid section" error and leave the world, hence every stored
    checklist, exactly as it was. *)
Theorem C7_invalid_section_rejected env cid section item_text item_id w :
  (section ∉ valid_sections) ->
  add_checklist_item env cid section item_text w = (Raise invalid_section, w)
  /\ toggle_checklist_item env cid section item_id w = (Raise invalid_section, w)
  /\ status_code invalid_section = 400.
Proof.
  intros Hs. destruct (invalid_section_raises env cid section item_text item_id w Hs) as [-> ->].
  done.
Qed.

(** The section "bogus" on the sample checklist. *)
Lemma C7_invalid_section_rejected_witness :
  ("bogus" ∉ valid_sections)
  /\ add_checklist_item Sample.env "0" "bogus" "Polish chrome" Sample.w2
     = (Raise invalid_section, Sample.w2)
  /\ toggle_checklist_item Sample.env "0" "bogus" "1" Sample.w2
     = (Raise invalid_section, Sample.w2)
  /\ status_code invalid_section = 400.
Proof.
  assert (H : "bogus" ∉ valid_sections) 
    by (apply (bool_decide_unpack _); vm_compute; exact I).
  split; [exact H|].
  exact (C7_invalid_section_rejected Sample.env "0" "bogus" "Polish chrome" "1" Sample.w2 H).
Defined.

(** C8, counterexample.  Under a clock that reads 100000 and 100250
    microseconds, [create_checklist] returns a checklist whose
    [updated_at] is 100250, while [get_checklist] on its id returns the
    stored document, whose [updated_at] is 100000: the two documents
    differ. *)
Lemma C8_get_differs_from_created :
  exists c w' c2,
    create_checklist Sample.fine Sample.create_mustang Sample.empty_world = (Return c, w')
    /\ get_checklist (VehicleChecklist.id c) w' = (Return c2, w')
    /\ VehicleChecklist.updated_at c = 100250
    /\ VehicleChecklist.updated_at c2 = 100000
    /\ c2 <> c.
Proof.
  eexists _, _, _. split; [vm_compute; reflexivity|]. split; [vm_compute; reflexivity|].
  split; [reflexivity|]. split; [reflexivity|].
  intros Heq. apply (f_equal VehicleChecklist.updated_at) in Heq. vm_compute in Heq.
  discriminate Heq.
Qed.

(** C8, amended.  When [create_checklist] succeeds, with a generated id
    that no stored checklist carries yet, [get_checklist] on the id of
    the returned checklist succeeds at once and returns a document equal
    to the returned one in id, title, vehicle and engine records, the
    four empty item lists, the empty photo list and [is_template], and
    whose [created_at] and [updated_at] are those of the returned
    checklist with the microseconds dropped.  It is the returned
    checklist itself when both of its timestamps are whole
    milliseconds. *)
Theorem C8_get_after_create env d w c w' :
  create_checklist env d w = (Return c, w') ->
  lookup_checklist (uuid4_at env (uuid_calls w)) w = None ->
  get_checklist (VehicleChecklist.id c) w'
  = (Return (VehicleChecklist.mk
               (VehicleChecklist.id c) (VehicleChecklist.title c)
               (VehicleChecklist.vehicle_info c) (VehicleChecklist.engine_info c)
               [] [] [] [] []
               (bson_date (VehicleChecklist.created_at c))
               (bson_date (VehicleChecklist.updated_at c))
               (VehicleChecklist.is_template c)), w')
  /\ VehicleChecklist.tasks c = []
  /\ VehicleChecklist.parts_to_install c = []
  /\ VehicleChecklist.maintenance c = []
  /\ VehicleChecklist.research_items c = []
  /\ VehicleChecklist.photos c = []
  /\ (bson_date (VehicleChecklist.created_at c) = VehicleChecklist.created_at c ->
      bson_date (VehicleChecklist.updated_at c) = VehicleChecklist.updated_at c ->
      get_checklist (VehicleChecklist.id c) w' = (Return c, w')).
Proof.
  intros Hrun Hfresh.
  destruct (VehicleChecklistCreate.is_template d) as [b|] eqn:E.
  - rewrite (create_checklist_ok env d w b E) in Hrun. cbv zeta in Hrun.
    injection Hrun as <- <-. simpl.
    assert (Hget : forall x,
      get_checklist (uuid4_at env (uuid_calls w))
        (mkWorld (checklists w ++ [x]) (S (S (clock_calls w))) (S (uuid_calls w)))
      = (if String.eqb (VehicleChecklist.id x) (uuid4_at env (uuid_calls w))
         then Return x else Raise (mkHTTPException 404 "Checklist not found"),
         mkWorld (checklists w ++ [x]) (S (S (clock_calls w))) (S (uuid_calls w)))).
    { intros x. unfold get_checklist. run_handler. unfold lookup_checklist in Hfresh.
      rewrite find_one_app, Hfresh.
      by destruct (String.eqb (VehicleChecklist.id x) (uuid4_at env (uuid_calls w))). }
    rewrite Hget. unfold bson_checklist. cbn -[bson_date]. rewrite String.eqb_refl.
    split; [done|]. do 5 (split; [done|]). by intros -> ->.
  - rewrite (create_checklist_null env d w E) in Hrun. discriminate.
Qed.

(** A second checklist created in the sample store, whose clock reads
    whole milliseconds, is read back as returned. *)
Lemma C8_get_after_create_witness :
  exists c w',
    create_checklist Sample.env Sample.create_mustang Sample.w2 = (Return c, w')
    /\ lookup_checklist (uuid4_at Sample.env (uuid_calls Sample.w2)) Sample.w2 = None
    /\ get_checklist (VehicleChecklist.id c) w' = (Return c, w').
Proof.
  eexists _, _. split; [vm_compute; reflexivity|]. split; [vm_compute; reflexivity|].
  eapply (C8_get_after_create Sample.env Sample.create_mustang Sample.w2);
    vm_compute; reflexivity.
Defined.

(** C9.  A successful [update_checklist] returns, and leaves in the
    store, a checklist with the id, [created_at] and [is_template] it had
    before, whatever the payload. *)
Theorem C9_update_keeps_identity env cid u w c c' w' :
  lookup_checklist cid w = Some c ->
  update_checklist env cid u w = (Return c', w') ->
  lookup_checklist cid w' = Some c'
  /\ VehicleChecklist.id c' = VehicleChecklist.id c
  /\ VehicleChecklist.created_at c' = VehicleChecklist.created_at c
  /\ VehicleChecklist.is_template c' = VehicleChecklist.is_template c.
Proof.
  intros Hl Hrun.
  rewrite (update_checklist_found env cid u w c Hl) in Hrun. cbv zeta in Hrun.
  destruct (decide _); [discriminate|]. injection Hrun as <- <-.
  split; [unfold lookup_checklist; simpl; by apply update_one_found|].
  apply apply_update_frame.
Qed.

(** Replacing the task list of the sample checklist keeps its identity fields. *)
Lemma C9_update_keeps_identity_witness :
  exists c' w',
    lookup_checklist "0" Sample.w2 = Some Sample.checklist2
    /\ update_checklist Sample.env "0" Sample.replace_tasks Sample.w2 = (Return c', w')
    /\ VehicleChecklist.id c' = "0"
    /\ VehicleChecklist.created_at c' = 100000
    /\ VehicleChecklist.is_template c' = false.
Proof.
  eexists _, _. split; [vm_compute; reflexivity|]. split; [vm_compute; reflexivity|].
  eapply (C9_update_keeps_identity Sample.env "0" Sample.replace_tasks Sample.w2
            Sample.checklist2); vm_compute; reflexivity.
Defined.

(** C10, counterexample.  A checklist created under the
    quarter-millisecond clock is stored with [updated_at] 100000.  The
    next clock reading, 100500, is strictly later, yet the store keeps
    it as 100000 too: the update with the empty payload modifies nothing
    and raises the 400. *)
Lemma C10_update_fails_within_a_millisecond :
  exists c,
    lookup_checklist "0" Sample.w1_fine = Some c
    /\ VehicleChecklist.updated_at c = 100000
    /\ utcnow_at Sample.fine (clock_calls Sample.w1_fine) = 100500
    /\ VehicleChecklist.updated_at c < utcnow_at Sample.fine (clock_calls Sample.w1_fine)
    /\ (update_checklist Sample.fine "0" Sample.no_change Sample.w1_fine).1
       = Raise (mkHTTPException 400 "Failed to update checklist").
Proof.
  eexists. split; [vm_compute; reflexivity|].
  split; [reflexivity|]. split; [reflexivity|]. split; [reflexivity|].
  vm_compute. reflexivity.
Qed.

(** C10, amended.  If a checklist exists and its stored [updated_at] is
    earlier than the clock reading the update takes, once that reading
    is cut to whole milliseconds as the store keeps it, then the write
    modifies one document and [update_checklist] does not raise: the
    collection becomes the one [update_one] leaves, in which the id is
    found with the returned checklist, and the returned checklist has
    the new [updated_at].  With the empty payload the returned checklist
    is the stored one with only [updated_at] renewed. *)
Theorem C10_update_succeeds_when_clock_advances env cid u w c :
  lookup_checklist cid w = Some c ->
  VehicleChecklist.updated_at c < bson_date (utcnow_at env (clock_calls w)) ->
  (update_one cid
     (mkUpdateDoc (dict_not_none u ++ [set_updated_at (utcnow_at env (clock_calls w))]) [])
     (checklists w)).1 = 1%nat
  /\ (exists c',
        update_checklist env cid u w
        = (Return c',
           mkWorld
             (update_one cid
                (mkUpdateDoc
                   (dict_not_none u ++ [set_updated_at (utcnow_at env (clock_calls w))]) [])
                (checklists w)).2
             (S (clock_calls w)) (uuid_calls w))
        /\ lookup_checklist cid (update_checklist env cid u w).2 = Some c'
        /\ VehicleChecklist.updated_at c' = bson_date (utcnow_at env (clock_calls w)))
  /\ (update_checklist env cid
        (VehicleChecklistUpdate.mk None None None None None None None None) w).1
     = Return (with_updated_at (bson_date (utcnow_at env (clock_calls w))) c).
Proof.
  intros Hl Hlt.
  assert (Hne : forall u',
    apply_update
      (mkUpdateDoc (dict_not_none u' ++ [set_updated_at (utcnow_at env (clock_calls w))]) [])
      c <> c).
  { intros u' Heq. apply (f_equal VehicleChecklist.updated_at) in Heq.
    rewrite apply_update_dict in Heq. cbn [VehicleChecklist.updated_at] in Heq. lia. }
  split; [|split].
  - rewrite (proj1 (update_one_found cid _ _ _ Hl)).
    destruct (decide _) as [Heq|_]; [by destruct (Hne u)|done].
  - rewrite (update_checklist_found env cid u w c Hl). cbv zeta.
    destruct (decide _) as [Heq|_]; [by destruct (Hne u)|].
    eexists. split; [reflexivity|].
    split; [unfold lookup_checklist; simpl; by apply update_one_found|].
    by rewrite apply_update_dict.
  - rewrite (update_checklist_found env cid _ w c Hl). cbv zeta.
    destruct (decide _) as [Heq|_]; [by apply Hne in Heq|].
    cbn [fst]. rewrite apply_update_dict. by destruct c.
Qed.

(** The empty update on the sample checklist, stamped 102 ms, at clock
    reading 103 ms. *)
Lemma C10_update_succeeds_when_clock_advances_witness :
  lookup_checklist "0" Sample.w2 = Some Sample.checklist2
  /\ VehicleChecklist.updated_at Sample.checklist2
     < bson_date (utcnow_at Sample.env (clock_calls Sample.w2))
  /\ (update_checklist Sample.env "0" Sample.no_change Sample.w2).1
     = Return (with_updated_at (bson_date (utcnow_at Sample.env (clock_calls Sample.w2)))
                 Sample.checklist2).
Proof.
  split; [vm_compute; reflexivity|]. split; [vm_compute; reflexivity|].
  apply (C10_update_succeeds_when_clock_advances Sample.env "0" Sample.no_change Sample.w2
           Sample.checklist2); vm_compute; reflexivity.
Defined.



Lemma Sample_clock_monotone : clock_monotone Sample.env.
Proof. intros m n H. simpl. lia. Qed.

Lemma Sample_uuid_injective : uuid_injective Sample.env.
Proof. intros m n H. simpl in H. by apply (inj pretty). Qed.




(** * Further properties of the handlers *)

Lemma delete_one_missing cid coll :
  find_one cid coll = None -> delete_one cid coll = (0%nat, coll).
Proof.
  induction coll as [|d coll IH]; simpl; [done|].
  destruct (String.eqb (VehicleChecklist.id d) cid); [discriminate|].
  intros H. by rewrite (IH H).
Qed.

Lemma delete_one_found cid coll c :
  find_one cid coll = Some c ->
  (delete_one cid coll).1 = 1%nat
  /\ S (length (delete_one cid coll).2) = length coll.
Proof.
  induction coll as [|d coll IH]; simpl; [discriminate|].
  destruct (String.eqb (VehicleChecklist.id d) cid); [done|].
  intros H. destruct (IH H) as [IH1 IH2].
  destruct (delete_one cid coll) as [n rest]. simpl in *. split; [done|]. by rewrite IH2.
Qed.

Lemma filter_sublist {A} (f : A -> bool) (l : list A) : sublist (List.filter f l) l.
Proof.
  induction l as [|x l IH]; simpl; [constructor|].
  destruct (f x); by constructor.
Qed.

Lemma world_eta w : mkWorld (checklists w) (clock_calls w) (uuid_calls w) = w.
Proof. by destruct w. Qed.

(** X1.  [get_checklists] never changes the world and returns at most
    1000 checklists, all of them stored and in the order of the store;
    under a template filter every returned checklist has the requested
    [is_template] value. *)
Theorem X1_get_checklists_bounded_sound q w :
  exists l,
    get_checklists q w = (Return l, w)
    /\ (length l <= 1000)%nat
    /\ sublist l (checklists w)
    /\ forall b c, q = Some b -> c ∈ l -> VehicleChecklist.is_template c = b.
Proof.
  unfold get_checklists, db_find, find_to_list. eexists. split; [reflexivity|].
  split; [rewrite length_take; lia|].
  split; [etrans; [apply sublist_take | apply filter_sublist]|].
  intros b c -> Hc. apply subseteq_take in Hc.
  apply list_elem_of_In, filter_In in Hc as [_ Hb]. by apply Bool.eqb_prop.
Qed.

(** X2.  While the collection holds at most 1000 checklists,
    [get_checklists] without a filter returns the whole collection, with
    a filter it returns every stored checklist that has the requested
    [is_template] value, and the template and non-template listings
    together have as many entries as the unfiltered one. *)
Theorem X2_get_checklists_complete w :
  (length (checklists w) <= 1000)%nat ->
  (get_checklists None w).1 = Return (checklists w)
  /\ (forall b c, c ∈ checklists w -> VehicleChecklist.is_template c = b ->
        exists l, (get_checklists (Some b) w).1 = Return l /\ c ∈ l)
  /\ (exists lt lf,
        (get_checklists (Some true) w).1 = Return lt
        /\ (get_checklists (Some false) w).1 = Return lf
        /\ (length lt + length lf)%nat = length (checklists w)).
Proof.
  intros Hlen. unfold get_checklists, db_find, find_to_list. simpl.
  assert (Hall : List.filter (fun _ : VehicleChecklist.t => true) (checklists w)
                 = checklists w).
  { induction (checklists w) as [|x l IH]; simpl; [done|]. rewrite IH; [done|]. simpl in Hlen. lia. }
  assert (Hle : forall f : VehicleChecklist.t -> bool,
            (length (List.filter f (checklists w)) <= 1000)%nat).
  { intros f. etrans; [apply sublist_length, filter_sublist|done]. }
  split; [|split].
  - rewrite Hall. by rewrite take_ge.
  - intros b c Hc Hb. eexists. split; [reflexivity|].
    rewrite take_ge by apply Hle. apply list_elem_of_In, filter_In.
    split; [by apply list_elem_of_In|]. rewrite Hb. by destruct b.
  - eexists _, _. split; [reflexivity|]. split; [reflexivity|].
    rewrite !take_ge by apply Hle. clear.
    induction (checklists w) as [|x l IH]; simpl; [done|].
    destruct (VehicleChecklist.is_template x); simpl; lia.
Qed.

Lemma X2_get_checklists_complete_witness :
  (length (checklists Sample.w2) <= 1000)%nat
  /\ (get_checklists None Sample.w2).1 = Return (checklists Sample.w2).
Proof.
  split; [vm_compute; lia|].
  apply (X2_get_checklists_complete Sample.w2). vm_compute. lia.
Defined.

(** X3.  Deleting an existing checklist succeeds: the collection loses
    exactly one document, every checklist under another id is still
    found as before, nothing new appears, and neither the clock nor the
    uuid generator is consulted. *)
Theorem X3_delete_removes_one cid w c :
  lookup_checklist cid w = Some c ->
  exists w',
    delete_checklist cid w = (Return "Checklist deleted successfully", w')
    /\ S (length (checklists w')) = length (checklists w)
    /\ (forall cid', cid' <> cid -> lookup_checklist cid' w' = lookup_checklist cid' w)
    /\ (forall x, x ∈ checklists w' -> x ∈ checklists w)
    /\ clock_calls w' = clock_calls w
    /\ uuid_calls w' = uuid_calls w.
Proof.
  intros Hl. unfold lookup_checklist, delete_checklist in *. run_handler.
  destruct (delete_one_found cid _ _ Hl) as [Hn Hlen].
  pose proof (fun cid' => delete_one_other cid cid' (checklists w)) as Hoth.
  pose proof (delete_one_elem cid (checklists w)) as Hel.
  destruct (delete_one cid (checklists w)) as [n coll]. simpl in *. subst n. simpl.
  eexists. split; [reflexivity|]. simpl. split; [done|].
  split; [intros cid' Hne; by apply Hoth|]. by split.
Qed.

Lemma X3_delete_removes_one_witness :
  lookup_checklist "0" Sample.w2 = Some Sample.checklist2
  /\ exists w',
       delete_checklist "0" Sample.w2 = (Return "Checklist deleted successfully", w')
       /\ S (length (checklists w')) = length (checklists Sample.w2).
Proof.
  split; [vm_compute; reflexivity|].
  destruct (X3_delete_removes_one "0" Sample.w2 Sample.checklist2)
    as (w' & Hrun & Hlen & _); [vm_compute; reflexivity|].
  exists w'. by split.
Defined.

(** X4.  When checklist ids are pairwise distinct, a deleted checklist is
    gone: after the deletion its id is not found, and getting it or
    deleting it again raises a 404 without changing the world. *)
Theorem X4_deleted_is_gone cid w c :
  NoDup (VehicleChecklist.id <$> checklists w) ->
  lookup_checklist cid w = Some c ->
  lookup_checklist cid (delete_checklist cid w).2 = None
  /\ get_checklist cid (delete_checklist cid w).2
     = (Raise (mkHTTPException 404 "Checklist not found"), (delete_checklist cid w).2)
  /\ delete_checklist cid (delete_checklist cid w).2
     = (Raise (mkHTTPException 404 "Checklist not found"), (delete_checklist cid w).2).
Proof.
  intros Hnd Hl. rewrite delete_checklist_world.
  assert (Hgone : find_one cid (delete_one cid (checklists w)).2 = None)
    by (by apply delete_one_nodup).
  split; [done|]. split.
  - unfold get_checklist. run_handler. by rewrite Hgone.
  - unfold delete_checklist. run_handler.
    by rewrite (delete_one_missing cid _ Hgone).
Qed.

Lemma X4_deleted_is_gone_witness :
  NoDup (VehicleChecklist.id <$> checklists Sample.w2)
  /\ lookup_checklist "0" Sample.w2 = Some Sample.checklist2
  /\ lookup_checklist "0" (delete_checklist "0" Sample.w2).2 = None.
Proof.
  assert (Hnd : NoDup (VehicleChecklist.id <$> checklists Sample.w2))
    by (vm_compute; apply NoDup_singleton).
  split; [exact Hnd|]. split; [vm_compute; reflexivity|].
  apply (X4_deleted_is_gone "0" Sample.w2 Sample.checklist2 Hnd). vm_compute. reflexivity.
Defined.

(** X5.  When no checklist carries the id, every handler addressed to a
    checklist raises the 404 "Checklist not found" error (the two item
    handlers once the section is valid) and leaves the world untouched:
    nothing is written and neither the clock nor the uuid generator is
    consulted. *)
Theorem X5_missing_checklist_not_found env cid w :
  lookup_checklist cid w = None ->
  let not_found := mkHTTPException 404 "Checklist not found" in
  get_checklist cid w = (Raise not_found, w)
  /\ (forall u, update_checklist env cid u w = (Raise not_found, w))
  /\ delete_checklist cid w = (Raise not_found, w)
  /\ (forall section text, section ∈ valid_sections ->
        add_checklist_item env cid section text w = (Raise not_found, w))
  /\ (forall section item_id, section ∈ valid_sections ->
        toggle_checklist_item env cid section item_id w = (Raise not_found, w))
  /\ (forall p, add_photo env cid p w = (Raise not_found, w)).
Proof.
  intros Hl not_found. subst not_found.
  split; [|split; [|split; [|split; [|split]]]].
  - unfold lookup_checklist, get_checklist in *. run_handler. by rewrite Hl.
  - intros u. by apply update_checklist_missing.
  - unfold lookup_checklist, delete_checklist in *. run_handler.
    rewrite (delete_one_missing cid _ Hl). simpl. by rewrite world_eta.
  - intros section text Hs. unfold lookup_checklist, add_checklist_item in *.
    rewrite bool_decide_eq_false_2 by (intros Hn; by apply Hn).
    run_handler. by rewrite Hl.
  - intros section item_id Hs. by apply toggle_checklist_item_no_checklist.
  - intros p. unfold lookup_checklist, add_photo in *. run_handler. by rewrite Hl.
Qed.

Lemma X5_missing_checklist_not_found_witness :
  lookup_checklist "nope" Sample.w2 = None
  /\ get_checklist "nope" Sample.w2
     = (Raise (mkHTTPException 404 "Checklist not found"), Sample.w2).
Proof.
  split; [vm_compute; reflexivity|].
  apply (X5_missing_checklist_not_found Sample.env "nope" Sample.w2).
  vm_compute. reflexivity.
Defined.

(** X6.  For an existing checklist [add_photo] always succeeds and
    returns the photo as given; the photo is appended at the end of the
    checklist's photo list, with its timestamp cut to whole milliseconds
    as the store keeps it, [updated_at] becomes the clock reading taken,
    cut likewise, every other field and every other checklist is
    unchanged, and no uuid is generated. *)
Theorem X6_add_photo_appends env cid p w c :
  lookup_checklist cid w = Some c ->
  exists w' c',
    add_photo env cid p w = (Return ("Photo added successfully", p), w')
    /\ lookup_checklist cid w' = Some c'
    /\ c' = VehicleChecklist.mk
              (VehicleChecklist.id c) (VehicleChecklist.title c)
              (VehicleChecklist.vehicle_info c) (VehicleChecklist.engine_info c)
              (VehicleChecklist.tasks c) (VehicleChecklist.parts_to_install c)
              (VehicleChecklist.maintenance c) (VehicleChecklist.research_items c)
              (VehicleChecklist.photos c ++ [bson_photo p])%list
              (VehicleChecklist.created_at c)
              (bson_date (utcnow_at env (clock_calls w)))
              (VehicleChecklist.is_template c)
    /\ (forall cid', cid' <> cid -> lookup_checklist cid' w' = lookup_checklist cid' w)
    /\ uuid_calls w' = uuid_calls w.
Proof.
  intros Hl. rewrite (add_photo_found env cid p w c Hl). cbv zeta.
  set (ud := mkUpdateDoc _ _).
  assert (Hc' : apply_update ud c
    = VehicleChecklist.mk
        (VehicleChecklist.id c) (VehicleChecklist.title c)
        (VehicleChecklist.vehicle_info c) (VehicleChecklist.engine_info c)
        (VehicleChecklist.tasks c) (VehicleChecklist.parts_to_install c)
        (VehicleChecklist.maintenance c) (VehicleChecklist.research_items c)
        (VehicleChecklist.photos c ++ [bson_photo p])%list
        (VehicleChecklist.created_at c)
        (bson_date (utcnow_at env (clock_calls w)))
        (VehicleChecklist.is_template c)) by (by destruct c).
  assert (Hne : apply_update ud c <> c).
  { rewrite Hc'. intros Heq. apply (f_equal (fun d => length (VehicleChecklist.photos d))) in Heq.
    simpl in Heq. rewrite length_app in Heq. simpl in Heq. lia. }
  destruct (decide (apply_update ud c = c)) as [|_]; [done|].
  eexists _, (apply_update ud c). split; [reflexivity|]. simpl.
  split; [by apply update_one_found|]. split; [done|].
  split; [|done]. intros cid' Hne'. by apply update_one_other.
Qed.

Lemma X6_add_photo_appends_witness :
  lookup_checklist "0" Sample.w2 = Some Sample.checklist2
  /\ exists w' c',
       add_photo Sample.env "0" Sample.bay_photo Sample.w2
       = (Return ("Photo added successfully", Sample.bay_photo), w')
       /\ lookup_checklist "0" w' = Some c'
       /\ VehicleChecklist.photos c' = [Sample.bay_photo].
Proof.
  split; [vm_compute; reflexivity|].
  destruct (X6_add_photo_appends Sample.env "0" Sample.bay_photo Sample.w2 Sample.checklist2)
    as (w' & c' & Hrun & Hl & Hc & _); [vm_compute; reflexivity|].
  exists w', c'. split; [exact Hrun|]. split; [exact Hl|]. by rewrite Hc.
Defined.

Lemma find_item_split item_id items item :
  find_item item_id items = Some item ->
  exists pre post,
    items = (pre ++ item :: post)%list
    /\ find_item item_id pre = None
    /\ ChecklistItem.id item = item_id.
Proof.
  induction items as [|x rest IH]; simpl; [discriminate|].
  destruct (String.eqb (ChecklistItem.id x) item_id) eqn:E.
  - intros [= ->]. exists [], rest. split; [done|]. split; [done|]. by apply String.eqb_eq.
  - intros H. destruct (IH H) as (pre & post & -> & Hpre & Hid).
    exists (x :: pre), post. split; [done|]. split; [|done]. simpl. by rewrite E.
Qed.

Lemma find_item_app_miss item_id pre rest :
  find_item item_id pre = None ->
  find_item item_id (pre ++ rest) = find_item item_id rest.
Proof.
  induction pre as [|x pre IH]; simpl; [done|].
  destruct (String.eqb (ChecklistItem.id x) item_id); [discriminate|]. exact IH.
Qed.

(** The loop passes over the items that do not carry the id, rewrites
    the first one that does, and leaves the rest of the list alone. *)
Lemma toggle_loop_at env item_id pre item post w :
  find_item item_id pre = None ->
  ChecklistItem.id item = item_id ->
  toggle_loop env item_id (pre ++ item :: post) w
  = (Return ((pre ++ ChecklistItem.mk (ChecklistItem.id item) (ChecklistItem.text item)
                      (negb (ChecklistItem.completed item))
                      (if ChecklistItem.completed item then None
                       else Some (utcnow_at env (clock_calls w))) :: post)%list, true),
     if ChecklistItem.completed item then w
     else mkWorld (checklists w) (S (clock_calls w)) (uuid_calls w)).
Proof.
  intros Hpre Hid. induction pre as [|x pre IH]; simpl in *.
  - rewrite (proj2 (String.eqb_eq _ _) Hid). run_handler.
    by destruct (ChecklistItem.completed item).
  - destruct (String.eqb (ChecklistItem.id x) item_id); [discriminate|].
    run_handler. by rewrite (IH Hpre).
Qed.

Lemma toggle_checklist_item_at env cid section item_id w c pre item post :
  lookup_checklist cid w = Some c ->
  section ∈ valid_sections ->
  doc_get section c = (pre ++ item :: post)%list ->
  find_item item_id pre = None ->
  ChecklistItem.id item = item_id ->
  toggle_checklist_item env cid section item_id w
  = (Return "Item toggled successfully",
     mkWorld
       (update_one cid
          (mkUpdateDoc
             [set_section section
                (pre ++ ChecklistItem.mk (ChecklistItem.id item) (ChecklistItem.text item)
                          (negb (ChecklistItem.completed item))
                          (if ChecklistItem.completed item then None
                           else Some (utcnow_at env (clock_calls w))) :: post)%list;
              set_updated_at
                (utcnow_at env (if ChecklistItem.completed item then clock_calls w
                                else S (clock_calls w)))] [])
          (checklists w)).2
       (S (if ChecklistItem.completed item then clock_calls w else S (clock_calls w)))
       (uuid_calls w)).
Proof.
  intros Hl Hs Hdoc Hpre Hid.
  pose proof (toggle_loop_at env item_id pre item post w Hpre Hid) as Hrun.
  unfold lookup_checklist, toggle_checklist_item in *.
  rewrite bool_decide_eq_false_2 by (intros Hn; by apply Hn).
  run_handler. rewrite Hl, Hdoc. rewrite Hrun. simpl.
  set (items' := (pre ++ _ :: post)%list).
  assert (Hw : forall b : bool,
    clock_calls (if b then w else mkWorld (checklists w) (S (clock_calls w)) (uuid_calls w))
      = (if b then clock_calls w else S (clock_calls w))
    /\ checklists (if b then w else mkWorld (checklists w) (S (clock_calls w)) (uuid_calls w))
      = checklists w
    /\ uuid_calls (if b then w else mkWorld (checklists w) (S (clock_calls w)) (uuid_calls w))
      = uuid_calls w) by (by intros []).
  destruct (Hw (ChecklistItem.completed item)) as (-> & -> & ->).
  set (ud := mkUpdateDoc _ _).
  assert (Hn : apply_update ud c <> c).
  { apply valid_sections_items_key in Hs as [k Hk].
    unfold apply_update, ud; simpl. rewrite Hk.
    apply with_items_changed. unfold doc_get in Hdoc. rewrite Hk in Hdoc. rewrite Hdoc.
    unfold items'. intros Heq. apply (f_equal (fmap ChecklistItem.completed)) in Heq.
    rewrite completed_bson, !fmap_app, !fmap_cons in Heq. apply app_inv_head in Heq.
    injection Heq as Heq. simpl in Heq.
    by destruct (ChecklistItem.completed item). }
  destruct (update_one_found cid ud _ _ Hl) as [Hm _].
  destruct (update_one cid ud (checklists w)) as [m coll]. simpl in *. subst m.
  by destruct (decide (apply_update ud c = c)).
Qed.

(** X7.  When the checklist exists and the section is valid but no item
    of that list carries the id, [toggle_checklist_item] raises the 404
    "Item not found" error and leaves the world untouched: nothing is
    written and the clock is not read. *)
Theorem X7_toggle_missing_item env cid section item_id w c :
  lookup_checklist cid w = Some c ->
  section ∈ valid_sections ->
  find_item item_id (doc_get section c) = None ->
  toggle_checklist_item env cid section item_id w
  = (Raise (mkHTTPException 404 "Item not found"), w).
Proof. apply toggle_checklist_item_no_item. Qed.

Lemma X7_toggle_missing_item_witness :
  lookup_checklist "0" Sample.w2 = Some Sample.checklist2
  /\ "tasks" ∈ valid_sections
  /\ find_item "9" (doc_get "tasks" Sample.checklist2) = None
  /\ toggle_checklist_item Sample.env "0" "tasks" "9" Sample.w2
     = (Raise (mkHTTPException 404 "Item not found"), Sample.w2).
Proof.
  split; [vm_compute; reflexivity|]. split; [by left|]. split; [reflexivity|].
  apply (X7_toggle_missing_item Sample.env "0" "tasks" "9" Sample.w2 Sample.checklist2);
    [vm_compute; reflexivity | by left | reflexivity].
Defined.

Lemma bson_items_fixed (l : list ChecklistItem.t) :
  (forall x, x ∈ l -> bson_item x = x) -> bson_item <$> l = l.
Proof.
  induction l as [|x l IH]; intros H; [done|].
  rewrite fmap_cons, (H x) by left. f_equal. apply IH. intros y Hy. apply H. by right.
Qed.

(** X8.  A toggle rewrites exactly one item: the first item of the named
    list that carries the id.  The whole list is written back, so every
    item of it is stored anew with its [completed_at] cut to whole
    milliseconds; the items before and after the one toggled (later
    items with the same id included) keep their place, and their content
    too when they came from the store, where datetimes are whole
    milliseconds.  The item toggled keeps its id and text, its flag is
    flipped and its [completed_at] becomes the clock reading taken, cut
    likewise, or null.  The other lists, the photos and the other fields
    except [updated_at] are unchanged, [updated_at] is the last clock
    reading of the request as the store keeps it, and the other
    checklists are untouched. *)
Theorem X8_toggle_rewrites_first_match env cid section item_id w c item :
  lookup_checklist cid w = Some c ->
  section ∈ valid_sections ->
  find_item item_id (doc_get section c) = Some item ->
  exists w' c' pre post,
    toggle_checklist_item env cid section item_id w
      = (Return "Item toggled successfully", w')
    /\ lookup_checklist cid w' = Some c'
    /\ doc_get section c = (pre ++ item :: post)%list
    /\ find_item item_id pre = None
    /\ doc_get section c'
       = ((bson_item <$> pre)
          ++ ChecklistItem.mk (ChecklistItem.id item) (ChecklistItem.text item)
               (negb (ChecklistItem.completed item))
               (if ChecklistItem.completed item then None
                else Some (bson_date (utcnow_at env (clock_calls w))))
             :: (bson_item <$> post))%list
    /\ ((forall x, x ∈ doc_get section c -> bson_item x = x) ->
        doc_get section c'
        = (pre ++ ChecklistItem.mk (ChecklistItem.id item) (ChecklistItem.text item)
                    (negb (ChecklistItem.completed item))
                    (if ChecklistItem.completed item then None
                     else Some (bson_date (utcnow_at env (clock_calls w)))) :: post)%list)
    /\ (forall s, s <> section -> doc_get s c' = doc_get s c)
    /\ VehicleChecklist.id c' = VehicleChecklist.id c
    /\ VehicleChecklist.title c' = VehicleChecklist.title c
    /\ VehicleChecklist.vehicle_info c' = VehicleChecklist.vehicle_info c
    /\ VehicleChecklist.engine_info c' = VehicleChecklist.engine_info c
    /\ VehicleChecklist.photos c' = VehicleChecklist.photos c
    /\ VehicleChecklist.created_at c' = VehicleChecklist.created_at c
    /\ VehicleChecklist.is_template c' = VehicleChecklist.is_template c
    /\ VehicleChecklist.updated_at c' = bson_date (utcnow_at env (pred (clock_calls w')))
    /\ clock_calls w'
       = (if ChecklistItem.completed item then 1 + clock_calls w else 2 + clock_calls w)%nat
    /\ (forall cid', cid' <> cid -> lookup_checklist cid' w' = lookup_checklist cid' w).
Proof.
  intros Hl Hs Hi.
  destruct (find_item_split _ _ _ Hi) as (pre & post & Hdoc & Hpre & Hid).
  rewrite (toggle_checklist_item_at env cid section item_id w c pre item post
             Hl Hs Hdoc Hpre Hid).
  set (items' := (pre ++ _ :: post)%list). set (ud := mkUpdateDoc _ _).
  destruct (proj1 (valid_sections_items_key section) Hs) as [k Hk].
  assert (Hc' : apply_update ud c
                = with_updated_at
                    (bson_date
                       (utcnow_at env (if ChecklistItem.completed item then clock_calls w
                                       else S (clock_calls w))))
                    (with_items k (bson_item <$> items') c))
    by (unfold apply_update, ud; simpl; by rewrite Hk).
  assert (Hitems : bson_item <$> items'
    = ((bson_item <$> pre)
       ++ ChecklistItem.mk (ChecklistItem.id item) (ChecklistItem.text item)
            (negb (ChecklistItem.completed item))
            (if ChecklistItem.completed item then None
             else Some (bson_date (utcnow_at env (clock_calls w))))
          :: (bson_item <$> post))%list).
  { unfold items'. rewrite fmap_app, fmap_cons. unfold bson_item at 2.
    cbn [ChecklistItem.id ChecklistItem.text ChecklistItem.completed
         ChecklistItem.completed_at].
    by destruct (ChecklistItem.completed item). }
  assert (Hsec : doc_get section (apply_update ud c) = bson_item <$> items')
    by (rewrite Hc'; unfold doc_get; rewrite Hk; by destruct c, k).
  eexists _, (apply_update ud c), pre, post. split; [reflexivity|]. simpl.
  split; [by apply update_one_found|]. split; [done|]. split; [done|].
  split; [by rewrite Hsec|].
  split.
  { intros Hfix. rewrite Hsec, Hitems. rewrite Hdoc in Hfix.
    rewrite !bson_items_fixed; [done| |].
    - intros x Hx. apply Hfix. apply elem_of_app. right. by right.
    - intros x Hx. apply Hfix. apply elem_of_app. by left. }
  rewrite Hc'. split.
  { intros s Hns. unfold doc_get. destruct (items_key s) as [k'|] eqn:Hk'; [|done].
    assert (k' <> k) by (intros ->; destruct Hns; by apply (items_key_inj s section k)).
    by destruct c, k, k'. }
  repeat (split; [by destruct c, k|]).
  split; [by destruct (ChecklistItem.completed item)|].
  intros cid' Hne'. by apply update_one_other.
Qed.

Lemma X8_toggle_rewrites_first_match_witness :
  lookup_checklist "0" Sample.w2 = Some Sample.checklist2
  /\ "tasks" ∈ valid_sections
  /\ find_item "1" (doc_get "tasks" Sample.checklist2) = Some Sample.task
  /\ exists w' c',
       toggle_checklist_item Sample.env "0" "tasks" "1" Sample.w2
         = (Return "Item toggled successfully", w')
       /\ lookup_checklist "0" w' = Some c'
       /\ VehicleChecklist.photos c' = VehicleChecklist.photos Sample.checklist2.
Proof.
  split; [vm_compute; reflexivity|]. split; [by left|]. split; [reflexivity|].
  destruct (X8_toggle_rewrites_first_match Sample.env "0" "tasks" "1" Sample.w2
              Sample.checklist2 Sample.task)
    as (w' & c' & pre & post & Hrun & Hl & _ & _ & _ & _ & _ & _ & _ & _ & _ & Hph & _);
    [vm_compute; reflexivity | by left | reflexivity |].
  exists w', c'. by split.
Defined.

(** X9.  [create_checklist] with a non-null [is_template] always
    succeeds: the returned checklist carries the next uuid, the given
    title and records, five empty lists and two successive clock readings
    as [created_at] and [updated_at].  The document appended at the end
    of the collection is that checklist with the two readings cut to
    whole milliseconds, as the store keeps them; every id found before is
    still found with the same document.  With a null [is_template] the
    validation error surfaces as a 500 and nothing is inserted. *)
Theorem X9_create_effect env d w :
  (forall b,
     VehicleChecklistCreate.is_template d = Some b ->
     exists c w',
       create_checklist env d w = (Return c, w')
       /\ c = VehicleChecklist.mk (uuid4_at env (uuid_calls w))
                (VehicleChecklistCreate.title d)
                (VehicleChecklistCreate.vehicle_info d)
                (VehicleChecklistCreate.engine_info d)
                [] [] [] [] []
                (utcnow_at env (clock_calls w)) (utcnow_at env (S (clock_calls w))) b
       /\ checklists w'
          = (checklists w
             ++ [VehicleChecklist.mk (uuid4_at env (uuid_calls w))
                   (VehicleChecklistCreate.title d)
                   (VehicleChecklistCreate.vehicle_info d)
                   (VehicleChecklistCreate.engine_info d)
                   [] [] [] [] []
                   (bson_date (utcnow_at env (clock_calls w)))
                   (bson_date (utcnow_at env (S (clock_calls w)))) b])%list
       /\ (forall cid x, lookup_checklist cid w = Some x -> lookup_checklist cid w' = Some x))
  /\ (VehicleChecklistCreate.is_template d = None ->
      exists w',
        create_checklist env d w = (Raise internal_server_error, w')
        /\ checklists w' = checklists w).
Proof.
  split.
  - intros b Hb. rewrite (create_checklist_ok env d w b Hb). cbv zeta.
    eexists _, _. split; [reflexivity|]. split; [reflexivity|]. split; [reflexivity|].
    intros cid x Hl. unfold lookup_checklist in *. cbn [checklists].
    by rewrite find_one_app, Hl.
  - intros Hn. rewrite (create_checklist_null env d w Hn). by eexists.
Qed.

Lemma X9_create_effect_witness :
  VehicleChecklistCreate.is_template Sample.create_mustang = Some false
  /\ exists c w',
       create_checklist Sample.fine Sample.create_mustang Sample.empty_world = (Return c, w')
       /\ VehicleChecklist.updated_at c = 100250
       /\ VehicleChecklist.updated_at <$> checklists w' = [100000].
Proof.
  split; [reflexivity|].
  destruct (proj1 (X9_create_effect Sample.fine Sample.create_mustang Sample.empty_world) false)
    as (c & w' & Hrun & Hc & Hst & _); [reflexivity|].
  exists c, w'. split; [exact Hrun|]. split; [by rewrite Hc|]. by rewrite Hst.
Defined.

Lemma update_one_noop cid u coll c :
  find_one cid coll = Some c ->
  apply_update u c = c ->
  update_one cid u coll = (0%nat, coll).
Proof.
  induction coll as [|d coll IH]; simpl; [discriminate|].
  destruct (String.eqb (VehicleChecklist.id d) cid).
  - intros [= ->] Heq. rewrite Heq. by destruct (decide (c = c)).
  - intros H Heq. by rewrite (IH H Heq).
Qed.

(** X10.  An update that would change nothing is reported as a failure:
    when every payload field is null or equal, as the store keeps it, to
    the stored value and the clock reading, cut to whole milliseconds,
    equals the stored [updated_at], [update_checklist] raises the 400
    "Failed to update checklist" error, the collection is as before and
    one clock reading has been consumed. *)
Theorem X10_update_without_change_fails env cid u w c :
  lookup_checklist cid w = Some c ->
  bson_date (utcnow_at env (clock_calls w)) = VehicleChecklist.updated_at c ->
  default (VehicleChecklist.title c) (VehicleChecklistUpdate.title u)
    = VehicleChecklist.title c ->
  default (VehicleChecklist.vehicle_info c) (VehicleChecklistUpdate.vehicle_info u)
    = VehicleChecklist.vehicle_info c ->
  default (VehicleChecklist.engine_info c) (VehicleChecklistUpdate.engine_info u)
    = VehicleChecklist.engine_info c ->
  default (VehicleChecklist.tasks c) 
    (fmap (M:=list) bson_item <$> VehicleChecklistUpdate.tasks u)
    = VehicleChecklist.tasks c ->
  default (VehicleChecklist.parts_to_install c) 
    (fmap (M:=list) bson_item <$> VehicleChecklistUpdate.parts_to_install u)
    = VehicleChecklist.parts_to_install c ->
  default (VehicleChecklist.maintenance c) 
    (fmap (M:=list) bson_item <$> VehicleChecklistUpdate.maintenance u)
    = VehicleChecklist.maintenance c ->
  default (VehicleChecklist.research_items c) 
    (fmap (M:=list) bson_item <$> VehicleChecklistUpdate.research_items u)
    = VehicleChecklist.research_items c ->
  default (VehicleChecklist.photos c) 
    (fmap (M:=list) bson_photo <$> VehicleChecklistUpdate.photos u)
    = VehicleChecklist.photos c ->
  update_checklist env cid u w
  = (Raise (mkHTTPException 400 "Failed to update checklist"),
     mkWorld (checklists w) (S (clock_calls w)) (uuid_calls w)).
Proof.
  intros Hl Hnow H1 H2 H3 H4 H5 H6 H7 H8.
  rewrite (update_checklist_found env cid u w c Hl). cbv zeta.
  set (ud := mkUpdateDoc _ _).
  assert (Heq : apply_update ud c = c).
  { unfold ud. rewrite apply_update_dict, H1, H2, H3, H4, H5, H6, H7, H8, Hnow.
    by destruct c. }
  rewrite (update_one_noop cid ud _ c Hl Heq). simpl.
  by destruct (decide (apply_update ud c = c)).
Qed.

Lemma X10_update_without_change_fails_witness :
  lookup_checklist "0" Sample.w2 = Some Sample.checklist2
  /\ bson_date (utcnow_at Sample.stalled (clock_calls Sample.w2))
     = VehicleChecklist.updated_at Sample.checklist2
  /\ update_checklist Sample.stalled "0" Sample.no_change Sample.w2
     = (Raise (mkHTTPException 400 "Failed to update checklist"),
        mkWorld (checklists Sample.w2) (S (clock_calls Sample.w2)) (uuid_calls Sample.w2)).
Proof.
  split; [vm_compute; reflexivity|]. split; [reflexivity|].
  apply (X10_update_without_change_fails Sample.stalled "0" Sample.no_change Sample.w2
           Sample.checklist2); vm_compute; reflexivity.
Defined.

(** What a request addressed to one checklist does to the collection. *)
Lemma mutation_cases env r w cid :
  mutation_target r = Some cid ->
  checklists (serve env r w) = checklists w
  \/ exists ud, checklists (serve env r w) = (update_one cid ud (checklists w)).2.
Proof.
  unfold serve.
  destruct r as [d|q|cid0|cid0 u|cid0|cid0 section text|cid0 section item_id|cid0 p];
    simpl; try discriminate; intros [= ->]; cbn [dispatch]; rewrite respond_world.
  - destruct (lookup_checklist cid w) as [c|] eqn:E.
    + rewrite (update_checklist_found env cid u w c E). simpl. right. by eexists.
    + rewrite (update_checklist_missing env cid u w E). by left.
  - destruct (decide (section ∈ valid_sections)) as [Hs|Hs].
    + destruct (lookup_checklist cid w) as [c|] eqn:E.
      * rewrite (add_checklist_item_found env cid section text w c Hs E). simpl.
        right. by eexists.
      * unfold lookup_checklist, add_checklist_item in *.
        rewrite bool_decide_eq_false_2 by (intros Hn; by apply Hn).
        run_handler. rewrite E. by left.
    + rewrite (proj1 (invalid_section_raises env cid section text text w Hs)). by left.
  - destruct (decide (section ∈ valid_sections)) as [Hs|Hs].
    + destruct (lookup_checklist cid w) as [c|] eqn:E.
      * destruct (find_item item_id (doc_get section c)) as [item|] eqn:Ei.
        -- destruct (toggle_checklist_item_found env cid section item_id w c item E Hs Ei)
             as (items' & Hrun & _). rewrite Hrun. simpl. right. by eexists.
        -- rewrite (toggle_checklist_item_no_item env cid section item_id w c E Hs Ei).
           by left.
      * rewrite (toggle_checklist_item_no_checklist env cid section item_id w E Hs).
        by left.
    + rewrite (proj2 (invalid_section_raises env cid section item_id item_id w Hs)).
      by left.
  - destruct (lookup_checklist cid w) as [c|] eqn:E.
    + rewrite (add_photo_found env cid p w c E). simpl. right. by eexists.
    + unfold lookup_checklist, add_photo in *. run_handler. rewrite E. by left.
Qed.

(** X11.  A request that mutates one checklist (update, item addition,
    item toggle, photo addition), whether it succeeds or fails, never
    adds, removes or reorders checklists, and leaves every checklist
    stored under another id exactly as it was. *)
Theorem X11_mutation_is_local env r w cid :
  mutation_target r = Some cid ->
  VehicleChecklist.id <$> checklists (serve env r w) = VehicleChecklist.id <$> checklists w
  /\ forall cid', cid' <> cid ->
       lookup_checklist cid' (serve env r w) = lookup_checklist cid' w.
Proof.
  intros Hr. unfold lookup_checklist.
  destruct (mutation_cases env r w cid Hr) as [-> | [ud ->]]; [done|].
  split; [apply update_one_ids|]. intros cid' Hne. by apply update_one_other.
Qed.

Lemma X11_mutation_is_local_witness :
  mutation_target (PUT_checklist "0" Sample.replace_tasks) = Some "0"
  /\ VehicleChecklist.id <$> checklists (serve Sample.env (PUT_checklist "0" Sample.replace_tasks) Sample.w2)
     = VehicleChecklist.id <$> checklists Sample.w2.
Proof.
  split; [reflexivity|].
  apply (X11_mutation_is_local Sample.env (PUT_checklist "0" Sample.replace_tasks)
           Sample.w2 "0"). reflexivity.
Defined.

Section IdFacts.
Variable env : Env.
Hypothesis uuid_ok : uuid_injective env.

Lemma ids_ok_empty clock0 uuid0 : ids_ok env (mkWorld [] clock0 uuid0).
Proof.
  split; simpl; [constructor|]. intros n c _ Hc. by apply elem_of_nil in Hc.
Qed.

Lemma serve_ids_ok r w : ids_ok env w -> ids_ok env (serve env r w).
Proof.
  intros [Hnd Hids].
  destruct (serve_cases env r w) as (_ & Huu & [E | [(c & E & Hid & Hu & _)
    | [(cid & E) | (cid & ud & c & k & Hl & E & _)]]]); split; rewrite E.
  - done.
  - intros n c Hn Hc. apply Hids; [lia|done].
  - rewrite fmap_app. simpl. apply NoDup_app. split; [done|]. split; [|apply NoDup_singleton].
    intros x (d & -> & Hd)%list_elem_of_fmap [Heq|[]%elem_of_nil]%elem_of_cons.
    apply (Hids (uuid_calls w) d); [lia|done|congruence].
  - intros n d Hn [Hd|[->|[]%elem_of_nil]%elem_of_cons]%elem_of_app.
    + apply Hids; [lia|done].
    + rewrite Hid. intros Heq%uuid_ok. lia.
  - by apply delete_one_nodup.
  - intros n d Hn Hd%delete_one_elem. apply Hids; [lia|done].
  - by rewrite update_one_ids.
  - intros n d Hn [Hd | (c1 & Hf & ->)]%update_one_elem.
    + apply Hids; [lia|done].
    + rewrite apply_update_id. apply Hids; [lia|]. by apply (find_one_elem cid).
Qed.

Lemma serve_all_ids_ok rs w : ids_ok env w -> ids_ok env (serve_all env rs w).
Proof.
  revert w. induction rs as [|r rs IH]; intros w Hw; simpl; [done|].
  apply IH. by apply serve_ids_ok.
Qed.

Lemma serve_identity r w cid c :
  ids_ok env w ->
  lookup_checklist cid w = Some c ->
  (exists c1, lookup_checklist cid (serve env r w) = Some c1
              /\ VehicleChecklist.created_at c1 = VehicleChecklist.created_at c
              /\ VehicleChecklist.is_template c1 = VehicleChecklist.is_template c)
  \/ retired env (serve env r w) cid.
Proof.
  intros [Hnd Hids] Hl. unfold retired, lookup_checklist in *.
  pose proof (find_one_elem _ _ _ Hl) as Hin.
  pose proof (find_one_id _ _ _ Hl) as Hid.
  destruct (serve_cases env r w) as (_ & Huu & [E | [(c0 & E & _)
    | [(cid0 & E) | (cid0 & ud & c0 & k & Hl0 & E & _)]]]); rewrite E.
  - left. by exists c.
  - left. exists c. by rewrite find_one_app, Hl.
  - destruct (decide (cid = cid0)) as [->|Hne].
    + right. split; [by apply delete_one_nodup|].
      intros n Hn Heq. apply (Hids n c); [lia|done|congruence].
    + left. exists c. by rewrite delete_one_other.
  - destruct (decide (cid = cid0)) as [->|Hne].
    + left. unfold lookup_checklist in Hl0. rewrite Hl in Hl0. injection Hl0 as <-.
      exists (apply_update ud c). split; [by apply update_one_found|].
      apply apply_update_frame.
    + left. exists c. by rewrite update_one_other.
Qed.

Lemma serve_all_identity rs w cid c c' :
  ids_ok env w ->
  lookup_checklist cid w = Some c ->
  lookup_checklist cid (serve_all env rs w) = Some c' ->
  VehicleChecklist.created_at c' = VehicleChecklist.created_at c
  /\ VehicleChecklist.is_template c' = VehicleChecklist.is_template c.
Proof.
  revert w c. induction rs as [|r rs IH]; intros w c Hw Hl; simpl.
  - rewrite Hl. by intros [= ->].
  - intros Hl'. destruct (serve_identity r w cid c Hw Hl) as [(c1 & Hl1 & <- & <-)|Hret].
    + apply (IH (serve env r w)); [by apply serve_ids_ok|done|done].
    + by rewrite (serve_all_retired env rs _ cid Hret) in Hl'.
Qed.

End IdFacts.

(** X12.  If the uuid generator never repeats itself, then after any
    sequence of requests served from an empty collection the stored
    checklists have pairwise distinct ids. *)
Theorem X12_checklist_ids_distinct env rs clock0 uuid0 :
  uuid_injective env ->
  NoDup (VehicleChecklist.id <$> checklists (serve_all env rs (mkWorld [] clock0 uuid0))).
Proof.
  intros Hu. apply (serve_all_ids_ok env Hu rs). apply ids_ok_empty.
Qed.

(** The sample generator yields ids that were not used before. *)
Lemma X12_checklist_ids_distinct_witness :
  uuid_injective Sample.env
  /\ NoDup (VehicleChecklist.id <$> checklists
              (serve_all Sample.env
                 [POST_checklists Sample.create_mustang; POST_checklists Sample.create_mustang;
                  DELETE_checklist "0"; POST_checklists Sample.create_mustang]
                 (mkWorld [] 0 0))).
Proof.
  split; [exact Sample_uuid_injective|].
  apply (X12_checklist_ids_distinct Sample.env _ 0%nat 0%nat Sample_uuid_injective).
Defined.

(** X13.  If the uuid generator never repeats itself and checklist ids
    are distinct and were generated in the past, then over any sequence
    of requests a checklist that is found before and after has kept its
    [created_at] and its [is_template] flag: no handler rewrites them and
    a deleted id is never given out again. *)
Theorem X13_created_at_is_template_immutable env rs w cid c c' :
  uuid_injective env ->
  ids_ok env w ->
  lookup_checklist cid w = Some c ->
  lookup_checklist cid (serve_all env rs w) = Some c' ->
  VehicleChecklist.id c' = VehicleChecklist.id c
  /\ VehicleChecklist.created_at c' = VehicleChecklist.created_at c
  /\ VehicleChecklist.is_template c' = VehicleChecklist.is_template c.
Proof.
  intros Hu Hw Hl Hl'. split.
  - unfold lookup_checklist in *.
    by rewrite (find_one_id _ _ _ Hl), (find_one_id _ _ _ Hl').
  - by apply (serve_all_identity env Hu rs w cid).
Qed.

Lemma Sample_w2_ids_ok : ids_ok Sample.env Sample.w2.
Proof.
  unfold Sample.w2, Sample.w1.
  do 2 apply (serve_ids_ok _ Sample_uuid_injective). apply ids_ok_empty.
Qed.

Lemma X13_created_at_is_template_immutable_witness :
  uuid_injective Sample.env
  /\ ids_ok Sample.env Sample.w2
  /\ lookup_checklist "0" Sample.w2 = Some Sample.checklist2
  /\ forall c',
       lookup_checklist "0"
         (serve_all Sample.env
            [PUT_checklist "0" Sample.replace_tasks; POST_photo "0" Sample.bay_photo;
             PUT_toggle "0" "tasks" "t1"] Sample.w2) = Some c' ->
       VehicleChecklist.created_at c' = VehicleChecklist.created_at Sample.checklist2.
Proof.
  split; [exact Sample_uuid_injective|]. split; [exact Sample_w2_ids_ok|].
  split; [vm_compute; reflexivity|].
  intros c' Hl'.
  assert (Hl : lookup_checklist "0" Sample.w2 = Some Sample.checklist2)
    by (vm_compute; reflexivity).
  exact (proj1 (proj2 (X13_created_at_is_template_immutable Sample.env _ Sample.w2 "0"
           Sample.checklist2 c' Sample_uuid_injective Sample_w2_ids_ok Hl Hl'))).
Defined.

(** X14.  Adding an item and then toggling it by the id that was
    returned: provided no item of the list already carries that id, both
    requests succeed and the list ends with the new item, completed, with
    the clock reading of the toggle, cut to whole milliseconds, as
    [completed_at].  The items that were there before keep their place,
    each stored anew with its [completed_at] cut likewise, hence
    unchanged when they came from the store. *)
Theorem X14_add_then_toggle env cid section text w c :
  lookup_checklist cid w = Some c ->
  section ∈ valid_sections ->
  find_item (uuid4_at env (uuid_calls w)) (doc_get section c) = None ->
  exists item w1 w2 c2,
    add_checklist_item env cid section text w
      = (Return ("Item added successfully", item), w1)
    /\ ChecklistItem.completed item = false
    /\ toggle_checklist_item env cid section (ChecklistItem.id item) w1
      = (Return "Item toggled successfully", w2)
    /\ lookup_checklist cid w2 = Some c2
    /\ doc_get section c2
       = ((bson_item <$> doc_get section c)
          ++ [ChecklistItem.mk (ChecklistItem.id item) text true
                (Some (bson_date (utcnow_at env (S (clock_calls w)))))])%list
    /\ ((forall x, x ∈ doc_get section c -> bson_item x = x) ->
        doc_get section c2
        = (doc_get section c
           ++ [ChecklistItem.mk (ChecklistItem.id item) text true
                 (Some (bson_date (utcnow_at env (S (clock_calls w)))))])%list).
Proof.
  intros Hl Hs Hfresh.
  set (item := ChecklistItem.mk (uuid4_at env (uuid_calls w)) text false None).
  pose proof (add_checklist_item_found env cid section text w c Hs Hl) as Hadd.
  cbv zeta in Hadd. fold item in Hadd.
  destruct (proj1 (valid_sections_items_key section) Hs) as [k Hk].
  set (ud := mkUpdateDoc _ _) in Hadd.
  assert (Hc1 : apply_update ud c
                = with_items k (items_at k c ++ [item])%list
                    (with_updated_at (bson_date (utcnow_at env (clock_calls w))) c))
    by (unfold ud; by rewrite (add_item_effect section k item _ c Hk)).
  assert (Hdoc1 : doc_get section (apply_update ud c) = (doc_get section c ++ [item])%list).
  { rewrite Hc1. unfold doc_get. rewrite Hk, items_at_with_items.
    destruct (decide (k = k)); [|done]. by destruct c, k. }
  assert (Hne : apply_update ud c <> c).
  { intros Heq. rewrite Heq in Hdoc1.
    apply (f_equal length) in Hdoc1. rewrite length_app in Hdoc1. simpl in Hdoc1. lia. }
  destruct (decide (apply_update ud c = c)) as [|_]; [done|].
  set (w1 := mkWorld _ _ _) in Hadd.
  assert (Hl1 : lookup_checklist cid w1 = Some (apply_update ud c))
    by (unfold lookup_checklist, w1; simpl; by apply update_one_found).
  pose proof (toggle_checklist_item_at env cid section (ChecklistItem.id item) w1
                (apply_update ud c) (doc_get section c) item [] Hl1 Hs Hdoc1 Hfresh eq_refl)
    as Htog.
  simpl in Htog.
  set (ud2 := mkUpdateDoc _ _) in Htog.
  assert (Hdoc2 : doc_get section (apply_update ud2 (apply_update ud c))
    = ((bson_item <$> doc_get section c)
       ++ [ChecklistItem.mk (ChecklistItem.id item) text true
             (Some (bson_date (utcnow_at env (S (clock_calls w)))))])%list).
  { unfold apply_update at 1, ud2, doc_get. simpl. rewrite Hk.
    rewrite fmap_app. by destruct (apply_update ud c), k. }
  eexists item, w1, _, (apply_update ud2 (apply_update ud c)).
  split; [exact Hadd|]. split; [done|]. split; [exact Htog|].
  split; [unfold lookup_checklist in *; simpl; by apply update_one_found|].
  split; [exact Hdoc2|].
  intros Hfix. by rewrite Hdoc2, bson_items_fixed.
Qed.

Lemma X14_add_then_toggle_witness :
  lookup_checklist "0" Sample.w2 = Some Sample.checklist2
  /\ "tasks" ∈ valid_sections
  /\ find_item (uuid4_at Sample.env (uuid_calls Sample.w2)) (doc_get "tasks" Sample.checklist2)
     = None
  /\ exists item w1 w2 c2,
       add_checklist_item Sample.env "0" "tasks" "Fit new plugs" Sample.w2
         = (Return ("Item added successfully", item), w1)
       /\ toggle_checklist_item Sample.env "0" "tasks" (ChecklistItem.id item) w1
         = (Return "Item toggled successfully", w2)
       /\ lookup_checklist "0" w2 = Some c2
       /\ doc_get "tasks" c2
          = [Sample.task;
             ChecklistItem.mk (ChecklistItem.id item) "Fit new plugs" true (Some 104000)].
Proof.
  split; [vm_compute; reflexivity|]. split; [by left|]. split; [vm_compute; reflexivity|].
  destruct (X14_add_then_toggle Sample.env "0" "tasks" "Fit new plugs" Sample.w2
              Sample.checklist2)
    as (item & w1 & w2 & c2 & Hadd & _ & Htog & Hl & Hdoc & _);
    [vm_compute; reflexivity | by left | vm_compute; reflexivity |].
  exists item, w1, w2, c2. split; [exact Hadd|]. split; [exact Htog|]. split; [exact Hl|].
  exact Hdoc.
Defined.

Lemma add_photo_succeeds env cid p w c :
  lookup_checklist cid w = Some c ->
  exists w', add_photo env cid p w = (Return ("Photo added successfully", p), w').
Proof.
  intros Hl. rewrite (add_photo_found env cid p w c Hl). cbv zeta.
  destruct (decide _) as [Heq|_]; [|by eexists].
  apply (f_equal (fun d => length (VehicleChecklist.photos d))) in Heq.
  destruct c. simpl in Heq. rewrite length_app in Heq. simpl in Heq. lia.
Qed.

Lemma add_item_succeeds env cid section text w c :
  lookup_checklist cid w = Some c ->
  section ∈ valid_sections ->
  exists r w', add_checklist_item env cid section text w = (Return r, w').
Proof.
  intros Hl Hs. rewrite (add_checklist_item_found env cid section text w c Hs Hl). cbv zeta.
  destruct (decide _) as [Heq|_]; [|by eexists _, _].
  destruct (proj1 (valid_sections_items_key section) Hs) as [k Hk].
  rewrite (add_item_effect section k _ _ c Hk) in Heq.
  apply (f_equal (fun d => length (items_at k d))) in Heq.
  rewrite items_at_with_items in Heq. destruct (decide (k = k)); [|done].
  rewrite length_app in Heq. simpl in Heq. lia.
Qed.

(** X15.  Reading back after a write: when [update_checklist],
    [add_checklist_item] or [add_photo] succeeds, [get_checklist] on the
    same id succeeds at once; after an update it returns the very
    document the update returned, after an item or photo addition a
    document whose named list or photo list ends with what the addition
    returned (for a photo, with its timestamp cut to whole milliseconds
    as the store keeps it). *)
Theorem X15_get_after_write env cid w :
  (forall u c' w',
     update_checklist env cid u w = (Return c', w') ->
     get_checklist cid w' = (Return c', w'))
  /\ (forall section text m item w',
        add_checklist_item env cid section text w = (Return (m, item), w') ->
        exists c', get_checklist cid w' = (Return c', w')
                   /\ last (doc_get section c') = Some item)
  /\ (forall p m photo w',
        add_photo env cid p w = (Return (m, photo), w') ->
        exists c', get_checklist cid w' = (Return c', w')
                   /\ last (VehicleChecklist.photos c') = Some (bson_photo photo)).
Proof.
  assert (Hget : forall w' c', lookup_checklist cid w' = Some c' ->
                               get_checklist cid w' = (Return c', w')).
  { intros w' c' Hl. unfold lookup_checklist, get_checklist in *. run_handler.
    by rewrite Hl. }
  split; [|split].
  - intros u c' w' Hrun.
    destruct (lookup_checklist cid w) as [c|] eqn:Hl.
    + rewrite (update_checklist_found env cid u w c Hl) in Hrun. cbv zeta in Hrun.
      destruct (decide _); [discriminate|]. injection Hrun as <- <-.
      apply Hget. unfold lookup_checklist. simpl. by apply update_one_found.
    + by rewrite (update_checklist_missing env cid u w Hl) in Hrun.
  - intros section text m item w' Hrun.
    destruct (decide (section ∈ valid_sections)) as [Hs|Hs];
      [|by rewrite (proj1 (invalid_section_raises env cid section text text w Hs)) in Hrun].
    destruct (lookup_checklist cid w) as [c|] eqn:Hl.
    + rewrite (add_checklist_item_found env cid section text w c Hs Hl) in Hrun.
      cbv zeta in Hrun. destruct (decide _); [discriminate|]. injection Hrun as <- <- <-.
      eexists. split.
      * apply Hget. unfold lookup_checklist. simpl. by apply update_one_found.
      * destruct (proj1 (valid_sections_items_key section) Hs) as [k Hk].
        rewrite (add_item_effect section k _ _ c Hk). unfold doc_get. rewrite Hk.
        rewrite items_at_with_items. destruct (decide (k = k)); [|done].
        by rewrite last_snoc.
    + unfold lookup_checklist, add_checklist_item in *.
      rewrite bool_decide_eq_false_2 in Hrun by (intros Hn; by apply Hn).
      revert Hrun. run_handler. by rewrite Hl.
  - intros p m photo w' Hrun.
    destruct (lookup_checklist cid w) as [c|] eqn:Hl.
    + rewrite (add_photo_found env cid p w c Hl) in Hrun. cbv zeta in Hrun.
      destruct (decide _); [discriminate|]. injection Hrun as <- <- <-.
      eexists. split.
      * apply Hget. unfold lookup_checklist. simpl. by apply update_one_found.
      * unfold apply_update. simpl. destruct c. simpl. by rewrite last_snoc.
    + unfold lookup_checklist, add_photo in *. revert Hrun. run_handler. by rewrite Hl.
Qed.

Lemma X15_get_after_write_witness :
  exists c' w',
    update_checklist Sample.env "0" Sample.retitle Sample.w2 = (Return c', w')
    /\ get_checklist "0" w' = (Return c', w').
Proof.
  eexists _, _. split; [vm_compute; reflexivity|].
  eapply (proj1 (X15_get_after_write Sample.env "0" Sample.w2) Sample.retitle).
  vm_compute. reflexivity.
Defined.

(** X16.  The errors each handler can raise.  [create_checklist] can
    only fail with the 500 of a null [is_template]; [get_checklist] and
    [delete_checklist] only with the 404; [update_checklist] only with
    the 404 or its 400; [add_photo] only with the 404;
    [add_checklist_item] only with the invalid-section 400 or the 404;
    [toggle_checklist_item] only with the invalid-section 400 or one of
    the two 404s.  In particular the "Failed to create checklist",
    "Failed to add item", "Failed to update item" and "Failed to add
    photo" errors of the source are never raised. *)
Theorem X16_errors_raised env w e :
  (forall d, (create_checklist env d w).1 = Raise e -> e = internal_server_error)
  /\ (forall cid, (get_checklist cid w).1 = Raise e ->
        e = mkHTTPException 404 "Checklist not found")
  /\ (forall cid, (delete_checklist cid w).1 = Raise e ->
        e = mkHTTPException 404 "Checklist not found")
  /\ (forall cid u, (update_checklist env cid u w).1 = Raise e ->
        e = mkHTTPException 404 "Checklist not found"
        \/ e = mkHTTPException 400 "Failed to update checklist")
  /\ (forall cid p, (add_photo env cid p w).1 = Raise e ->
        e = mkHTTPException 404 "Checklist not found")
  /\ (forall cid section text, (add_checklist_item env cid section text w).1 = Raise e ->
        e = invalid_section \/ e = mkHTTPException 404 "Checklist not found")
  /\ (forall cid section item_id,
        (toggle_checklist_item env cid section item_id w).1 = Raise e ->
        e = invalid_section
        \/ e = mkHTTPException 404 "Checklist not found"
        \/ e = mkHTTPException 404 "Item not found").
Proof.
  split; [|split; [|split; [|split; [|split; [|split]]]]].
  - intros d. destruct (VehicleChecklistCreate.is_template d) as [b|] eqn:E.
    + by rewrite (create_checklist_ok env d w b E).
    + rewrite (create_checklist_null env d w E). simpl. by intros [= <-].
  - intros cid. unfold get_checklist. run_handler.
    destruct (find_one cid (checklists w)); simpl; [discriminate|]. by intros [= <-].
  - intros cid. unfold delete_checklist. run_handler.
    destruct (delete_one cid (checklists w)) as [n coll]. simpl.
    destruct (n =? 0)%nat; simpl; [|discriminate]. by intros [= <-].
  - intros cid u. destruct (lookup_checklist cid w) as [c|] eqn:Hl.
    + rewrite (update_checklist_found env cid u w c Hl). cbv zeta. simpl.
      destruct (decide _); [|discriminate]. intros [= <-]. by right.
    + rewrite (update_checklist_missing env cid u w Hl). simpl. intros [= <-]. by left.
  - intros cid p. destruct (lookup_checklist cid w) as [c|] eqn:Hl.
    + destruct (add_photo_succeeds env cid p w c Hl) as (w' & ->). discriminate.
    + unfold lookup_checklist, add_photo in *. run_handler. rewrite Hl. simpl.
      by intros [= <-].
  - intros cid section text.
    destruct (decide (section ∈ valid_sections)) as [Hs|Hs];
      [|rewrite (proj1 (invalid_section_raises env cid section text text w Hs)); simpl;
        intros [= <-]; by left].
    destruct (lookup_checklist cid w) as [c|] eqn:Hl.
    + destruct (add_item_succeeds env cid section text w c Hl Hs) as (r & w' & ->).
      discriminate.
    + unfold lookup_checklist, add_checklist_item in *.
      rewrite bool_decide_eq_false_2 by (intros Hn; by apply Hn).
      run_handler. rewrite Hl. simpl. intros [= <-]. by right.
  - intros cid section item_id.
    destruct (decide (section ∈ valid_sections)) as [Hs|Hs];
      [|rewrite (proj2 (invalid_section_raises env cid section item_id item_id w Hs)); simpl;
        intros [= <-]; by left].
    destruct (lookup_checklist cid w) as [c|] eqn:Hl.
    + destruct (find_item item_id (doc_get section c)) as [item|] eqn:Hi.
      * destruct (toggle_checklist_item_found env cid section item_id w c item Hl Hs Hi)
          as (items' & -> & _). discriminate.
      * rewrite (toggle_checklist_item_no_item env cid section item_id w c Hl Hs Hi).
        simpl. intros [= <-]. by right; right.
    + rewrite (toggle_checklist_item_no_checklist env cid section item_id w Hl Hs).
      simpl. intros [= <-]. by right; left.
Qed.

Lemma delete_one_length cid coll :
  (length (delete_one cid coll).2 <= length coll)%nat
  /\ (length coll <= S (length (delete_one cid coll).2))%nat.
Proof.
  destruct (find_one cid coll) as [c|] eqn:Hf.
  - destruct (delete_one_found cid coll c Hf) as [_ Hlen]. lia.
  - rewrite (delete_one_missing cid coll Hf). simpl. lia.
Qed.

Lemma mutation_length env r w cid :
  mutation_target r = Some cid ->
  length (checklists (serve env r w)) = length (checklists w).
Proof.
  intros Hr. destruct (mutation_cases env r w cid Hr) as [-> | [ud ->]]; [done|].
  rewrite <- (length_fmap VehicleChecklist.id), update_one_ids. apply length_fmap.
Qed.

(** X17.  Only a creation can make the collection grow and only a
    deletion can make it shrink, in each case by one document at most;
    every other request leaves the number of stored checklists as it
    was. *)
Theorem X17_collection_size env r w :
  ((forall d, r <> POST_checklists d) ->
   (length (checklists (serve env r w)) <= length (checklists w))%nat)
  /\ ((forall cid, r <> DELETE_checklist cid) ->
      (length (checklists w) <= length (checklists (serve env r w)))%nat)
  /\ (length (checklists (serve env r w)) <= S (length (checklists w)))%nat
  /\ (length (checklists w) <= S (length (checklists (serve env r w))))%nat.
Proof.
  destruct r as [d|q|cid|cid u|cid|cid section text|cid section item_id|cid p].
  - unfold serve; cbn [dispatch]; rewrite respond_world.
    destruct (VehicleChecklistCreate.is_template d) as [b|] eqn:E.
    + rewrite (create_checklist_ok env d w b E). simpl. rewrite length_app. simpl.
      split; [intros H; by destruct (H d)|]. lia.
    + rewrite (create_checklist_null env d w E). simpl.
      split; [intros H; by destruct (H d)|]. lia.
  - unfold serve; cbn [dispatch]; rewrite respond_world. simpl. lia.
  - unfold serve; cbn [dispatch]; rewrite respond_world.
    unfold get_checklist. run_handler.
    destruct (find_one cid (checklists w)); simpl; lia.
  - rewrite (mutation_length env (PUT_checklist cid u) w cid eq_refl). lia.
  - unfold serve; cbn [dispatch]; rewrite respond_world, delete_checklist_world. simpl.
    destruct (delete_one_length cid (checklists w)) as [Hle Hge].
    split; [done|]. split; [intros Hnd; by destruct (Hnd cid)|]. lia.
  - rewrite (mutation_length env (POST_item cid section text) w cid eq_refl). lia.
  - rewrite (mutation_length env (PUT_toggle cid section item_id) w cid eq_refl). lia.
  - rewrite (mutation_length env (POST_photo cid p) w cid eq_refl). lia.
Qed.

Lemma X17_collection_size_witness :
  (forall d, PUT_toggle "0" "tasks" "1" <> POST_checklists d)
  /\ (length (checklists (serve Sample.env (PUT_toggle "0" "tasks" "1") Sample.w2))
      <= length (checklists Sample.w2))%nat.
Proof.
  assert (H : forall d, PUT_toggle "0" "tasks" "1" <> POST_checklists d) by discriminate.
  split; [exact H|].
  exact (proj1 (X17_collection_size Sample.env (PUT_toggle "0" "tasks" "1") Sample.w2) H).
Defined.

(** The checklist a request appends is stamped with the two clock
    readings of the creation, as the store keeps them. *)
Lemma serve_append_stamps env r w c :
  checklists (serve env r w) = (checklists w ++ [c])%list ->
  VehicleChecklist.created_at c = bson_date (utcnow_at env (clock_calls w))
  /\ VehicleChecklist.updated_at c = bson_date (utcnow_at env (S (clock_calls w))).
Proof.
  intros E.
  assert (Hlen : length (checklists (serve env r w)) = S (length (checklists w)))
    by (rewrite E, length_app; simpl; lia).
  destruct r as [d|q|cid|cid u|cid|cid section text|cid section item_id|cid p].
  - revert E Hlen. unfold serve; cbn [dispatch]; rewrite respond_world.
    destruct (VehicleChecklistCreate.is_template d) as [b|] eqn:Eb.
    + rewrite (create_checklist_ok env d w b Eb). simpl.
      intros E%app_inv_head _. by injection E as <-.
    + rewrite (create_checklist_null env d w Eb). simpl. lia.
  - revert Hlen. unfold serve; cbn [dispatch]; rewrite respond_world. simpl. lia.
  - revert Hlen. unfold serve; cbn [dispatch]; rewrite respond_world.
    unfold get_checklist. run_handler.
    destruct (find_one cid (checklists w)); simpl; lia.
  - rewrite (mutation_length env (PUT_checklist cid u) w cid eq_refl) in Hlen. lia.
  - revert Hlen. unfold serve; cbn [dispatch]; rewrite respond_world, delete_checklist_world.
    simpl. destruct (delete_one_length cid (checklists w)). lia.
  - rewrite (mutation_length env (POST_item cid section text) w cid eq_refl) in Hlen. lia.
  - rewrite (mutation_length env (PUT_toggle cid section item_id) w cid eq_refl) in Hlen. lia.
  - rewrite (mutation_length env (POST_photo cid p) w cid eq_refl) in Hlen. lia.
Qed.

Lemma serve_stamps env r w :
  clock_monotone env ->
  (forall c, c ∈ checklists w ->
     VehicleChecklist.created_at c <= VehicleChecklist.updated_at c
     /\ VehicleChecklist.updated_at c <= bson_date (utcnow_at env (clock_calls w))) ->
  forall c, c ∈ checklists (serve env r w) ->
    VehicleChecklist.created_at c <= VehicleChecklist.updated_at c
    /\ VehicleChecklist.updated_at c
       <= bson_date (utcnow_at env (clock_calls (serve env r w))).
Proof.
  intros Hclock Hw.
  assert (Hold : forall c, c ∈ checklists w ->
    (clock_calls w <= clock_calls (serve env r w))%nat ->
    VehicleChecklist.created_at c <= VehicleChecklist.updated_at c
    /\ VehicleChecklist.updated_at c
       <= bson_date (utcnow_at env (clock_calls (serve env r w)))).
  { intros c Hc Hle. destruct (Hw c Hc) as [H1 H2]. split; [done|].
    etrans; [exact H2|]. by apply bson_date_mono, Hclock. }
  pose proof (serve_append_stamps env r w) as Happ.
  destruct (serve_cases env r w) as (Hck & _ & [E | [(c0 & E & _ & _ & _ & Hk & _)
    | [(cid & E) | (cid & ud & c0 & k & Hl & E & Hup & Hk & _)]]]); rewrite E.
  - intros c Hc. by apply Hold.
  - intros c [Hc|[->|[]%elem_of_nil]%elem_of_cons]%elem_of_app; [by apply Hold|].
    destruct (Happ c0 E) as [-> ->]. split; apply bson_date_mono, Hclock; lia.
  - intros c Hc%delete_one_elem. by apply Hold.
  - intros c [Hc | (c1 & Hf & ->)]%update_one_elem; [by apply Hold|].
    unfold lookup_checklist in Hl. rewrite Hl in Hf. injection Hf as <-.
    destruct (Hw c0 (find_one_elem _ _ _ Hl)) as [H1 H2].
    destruct (apply_update_frame ud c0) as (_ & -> & _). rewrite Hup.
    split; [|apply bson_date_mono, Hclock; lia].
    etrans; [exact H1|]. etrans; [exact H2|]. apply bson_date_mono, Hclock. lia.
Qed.

(** X18.  With a clock that never runs backwards, after any sequence of
    requests served from an empty collection every stored checklist has
    [created_at] no later than [updated_at], and [updated_at] no later
    than the next clock reading. *)
Theorem X18_created_before_updated env rs clock0 uuid0 c :
  clock_monotone env ->
  c ∈ checklists (serve_all env rs (mkWorld [] clock0 uuid0)) ->
  VehicleChecklist.created_at c <= VehicleChecklist.updated_at c
  /\ VehicleChecklist.updated_at c
     <= utcnow_at env (clock_calls (serve_all env rs (mkWorld [] clock0 uuid0))).
Proof.
  intros Hclock Hc.
  assert (Hinv : forall w,
    (forall c, c ∈ checklists w ->
       VehicleChecklist.created_at c <= VehicleChecklist.updated_at c
       /\ VehicleChecklist.updated_at c <= bson_date (utcnow_at env (clock_calls w))) ->
    forall c, c ∈ checklists (serve_all env rs w) ->
      VehicleChecklist.created_at c <= VehicleChecklist.updated_at c
      /\ VehicleChecklist.updated_at c
         <= bson_date (utcnow_at env (clock_calls (serve_all env rs w)))).
  { clear Hc. induction rs as [|r rs IH]; intros w Hw; simpl; [done|].
    apply IH. by apply serve_stamps. }
  destruct (Hinv (mkWorld [] clock0 uuid0)
              ltac:(intros x Hx; by apply elem_of_nil in Hx) c Hc) as [H1 H2].
  split; [done|]. etrans; [exact H2|]. apply bson_date_le.
Qed.

Lemma X18_created_before_updated_witness :
  clock_monotone Sample.env
  /\ Sample.checklist2 ∈ checklists
       (serve_all Sample.env
          [POST_checklists Sample.create_mustang;
           POST_item "0" "tasks" "Replace timing chain"] (mkWorld [] 0 0))
  /\ VehicleChecklist.created_at Sample.checklist2
     <= VehicleChecklist.updated_at Sample.checklist2.
Proof.
  assert (Hin : Sample.checklist2 ∈ checklists
       (serve_all Sample.env
          [POST_checklists Sample.create_mustang;
           POST_item "0" "tasks" "Replace timing chain"] (mkWorld [] 0 0)))
    by (vm_compute; left).
  split; [exact Sample_clock_monotone|]. split; [exact Hin|].
  exact (proj1 (X18_created_before_updated Sample.env _ 0%nat 0%nat Sample.checklist2
                  Sample_clock_monotone Hin)).
Defined.
